(** * Key-based text substitution: the four Translator variants

  A shallow embedding of the JavaScript sources

  - [translation-data-attributes.js]  (flat map, module [DataAttributes]),
  - the multi-language Translator      (module [MultiLanguage]),
  - the Proxy-based Translator         (module [ProxyTranslator]),
  - the Intl.MessageFormat Translator  (module [IntlTranslator]),

  together with the properties the specification states about them.

  Modelling conventions.  A translation table is a plain JavaScript object
  whose own properties are strings: its own properties are a
  [gmap string string], and a table partitioned by language has a
  [gmap string (gmap string string)] of own sub-maps.  The prototype of a
  table is [Object.prototype], so a read [obj[key]] that finds no own
  property goes on to the members of [Object.prototype], and from there to
  the built-in objects of ECMAScript 2024 as far as the sources can reach
  them (module [JS]).  The NodeList returned by
  [document.querySelectorAll('[data-translate]')] is the list of the
  matching elements in document order; each element carries its
  [data-translate] key and its [innerHTML], and no element of the list lies
  inside another.  The console is the list of lines written by
  [console.warn], oldest first. *)

From stdpp Require Import gmap strings list fin_maps pretty.

Open Scope string_scope.
Open Scope list_scope.

(** ** The fragment of JavaScript the sources use *)

Module JS.

(** The built-in objects a read can reach from a table: the two prototype
    objects, the two constructors, and the other built-in functions, which
    a name and a declared number of parameters tell apart. *)
Inductive builtin : Type :=
| ObjectPrototype
| FunctionPrototype
| ObjectConstructor
| FunctionConstructor
| NativeFunction (name : string) (length : nat).

(** JavaScript values: undefined, null, strings, numbers, objects given by
    the ordered list of their own properties, and the built-in objects. *)
Inductive value : Type :=
| VUndefined
| VNull
| VString (s : string)
| VNumber (n : nat)
| VObject (props : properties)
| VBuiltin (b : builtin)
with properties : Type :=
| PNil
| PCons (key : string) (v : value) (rest : properties).

Inductive error : Type :=
| TypeError (msg : string).

(** The outcome of evaluating code: a normal result or a thrown error. *)
Inductive completion (A : Type) : Type :=
| Normal (a : A)
| Throw (e : error).
Arguments Normal {A} a.
Arguments Throw {A} e.

#[global] Instance completion_ret : MRet completion := fun A a => Normal a.

#[global] Instance completion_bind : MBind completion := fun A B k c =>
  match c with
  | Normal a => k a
  | Throw e => Throw e
  end.

(** [ToBoolean]: undefined, null, the empty string and 0 are falsy; every
    object is truthy. *)
Definition ToBoolean (v : value) : bool :=
  match v with
  | VUndefined => false
  | VNull => false
  | VString "" => false
  | VString _ => true
  | VNumber 0 => false
  | VNumber _ => true
  | VObject _ => true
  | VBuiltin _ => true
  end.

(** The name of a built-in function. *)
Definition builtin_name (b : builtin) : string :=
  match b with
  | ObjectPrototype => ""
  | FunctionPrototype => ""
  | ObjectConstructor => "Object"
  | FunctionConstructor => "Function"
  | NativeFunction name _ => name
  end.

(** The text of a built-in object: [Object.prototype] is an ordinary object,
    the others are functions, printed in the form V8 and JavaScriptCore give
    to native functions. *)
Definition builtin_text (b : builtin) : string :=
  match b with
  | ObjectPrototype => "[object Object]"
  | _ => "function " +:+ builtin_name b +:+ "() { [native code] }"
  end.

(** [ToString], as applied by a template literal or an [innerHTML] assignment. *)
Definition ToString (v : value) : string :=
  match v with
  | VUndefined => "undefined"
  | VNull => "null"
  | VString s => s
  | VNumber n => pretty n
  | VObject _ => "[object Object]"
  | VBuiltin b => builtin_text b
  end.

(** [a || b] *)
Definition or_else (a b : value) : value :=
  if ToBoolean a then a else b.

(** *** The built-in objects

    Method tables: the name of each function-valued property and the
    function's [length]. *)

Fixpoint method_length (methods : list (string * nat)) (key : string) : option nat :=
  match methods with
  | [] => None
  | (name, length) :: rest =>
      if decide (key = name) then Some length else method_length rest key
  end.

(** The methods of [Object.prototype]. *)
Definition object_prototype_methods : list (string * nat) :=
  [ ("hasOwnProperty", 1); ("isPrototypeOf", 1); ("propertyIsEnumerable", 1);
    ("toLocaleString", 0); ("toString", 0); ("valueOf", 0);
    ("__defineGetter__", 2); ("__defineSetter__", 2);
    ("__lookupGetter__", 1); ("__lookupSetter__", 1) ].

(** The methods of [Function.prototype]. *)
Definition function_prototype_methods : list (string * nat) :=
  [ ("apply", 2); ("bind", 1); ("call", 1); ("toString", 0) ].

(** The static methods of [Object]. *)
Definition object_constructor_methods : list (string * nat) :=
  [ ("assign", 2); ("create", 2); ("defineProperties", 2); ("defineProperty", 3);
    ("entries", 1); ("freeze", 1); ("fromEntries", 1);
    ("getOwnPropertyDescriptor", 2); ("getOwnPropertyDescriptors", 1);
    ("getOwnPropertyNames", 1); ("getOwnPropertySymbols", 1);
    ("getPrototypeOf", 1); ("groupBy", 2); ("hasOwn", 2); ("is", 2);
    ("isExtensible", 1); ("isFrozen", 1); ("isSealed", 1); ("keys", 1);
    ("preventExtensions", 1); ("seal", 1); ("setPrototypeOf", 2); ("values", 1) ].

(** The member [key] of [Object.prototype], read on an object whose own
    prototype is [proto]: the constructor, the [__proto__] accessor (which
    answers with the prototype of the object read), a method, or nothing. *)
Definition object_prototype_get (proto : value) (key : string) : value :=
  if decide (key = "constructor") then VBuiltin ObjectConstructor
  else if decide (key = "__proto__") then proto
  else match method_length object_prototype_methods key with
       | Some length => VBuiltin (NativeFunction key length)
       | None => VUndefined
       end.

(** The member [key] of [Function.prototype], read on a function that has no
    own property of that name.  The accessors [caller] and [arguments]
    throw; what [Function.prototype] lacks is read from [Object.prototype]. *)
Definition function_prototype_get (key : string) : completion value :=
  if decide (key = "caller" \/ key = "arguments") then
    Throw (TypeError
             ("'caller', 'callee', and 'arguments' properties may not be accessed "
                +:+ "on strict mode functions or the arguments objects for calls to them"))
  else if decide (key = "constructor") then Normal (VBuiltin FunctionConstructor)
  else match method_length function_prototype_methods key with
       | Some length => Normal (VBuiltin (NativeFunction key length))
       | None => Normal (object_prototype_get (VBuiltin FunctionPrototype) key)
       end.

(** [f[key]] for a built-in function with the given own properties
    ([prototype] is undefined for a function that is no constructor). *)
Definition function_get (name : string) (length : nat) (statics : list (string * nat))
    (prototype : value) (key : string) : completion value :=
  if decide (key = "name") then Normal (VString name)
  else if decide (key = "length") then Normal (VNumber length)
  else if decide (key = "prototype") then Normal prototype
  else match method_length statics key with
       | Some n => Normal (VBuiltin (NativeFunction key n))
       | None => function_prototype_get key
       end.

(** [b[key]] for a built-in object. *)
Definition get_builtin (b : builtin) (key : string) : completion value :=
  match b with
  | ObjectPrototype => Normal (object_prototype_get VNull key)
  | FunctionPrototype => function_get "" 0 [] VUndefined key
  | ObjectConstructor =>
      function_get "Object" 1 object_constructor_methods (VBuiltin ObjectPrototype) key
  | FunctionConstructor => function_get "Function" 1 [] (VBuiltin FunctionPrototype) key
  | NativeFunction name length => function_get name length [] VUndefined key
  end.

(** *** Tables *)

(** [obj[key]] on a table: the own string, else the member inherited from
    [Object.prototype], else undefined. *)
Definition get (obj : gmap string string) (key : string) : value :=
  match obj !! key with
  | Some s => VString s
  | None => object_prototype_get (VBuiltin ObjectPrototype) key
  end.

(** [obj[key]] where [obj] itself may be undefined: reading a property of
    undefined throws a TypeError. *)
Definition get_member (obj : option (gmap string string)) (key : string)
  : completion value :=
  match obj with
  | Some o => Normal (get o key)
  | None =>
      Throw (TypeError ("Cannot read properties of undefined (reading '"
                          +:+ key +:+ "')"))
  end.

(** The objects a table of sub-maps gives: a sub-map or a built-in object. *)
Inductive object : Type :=
| Table (entries : gmap string string)
| Builtin (b : builtin).

(** [tables[key]] on a table of sub-maps: the own sub-map, else the member
    inherited from [Object.prototype], else undefined ([None]). *)
Definition get_table (tables : gmap string (gmap string string)) (key : string)
  : option object :=
  match tables !! key with
  | Some entries => Some (Table entries)
  | None =>
      match object_prototype_get (VBuiltin ObjectPrototype) key with
      | VBuiltin b => Some (Builtin b)
      | _ => None
      end
  end.

(** [o[key]] *)
Definition get_object (o : object) (key : string) : completion value :=
  match o with
  | Table entries => Normal (get entries key)
  | Builtin b => get_builtin b key
  end.

(** [o?.[key]] *)
Definition get_optional (o : option object) (key : string) : completion value :=
  match o with
  | Some o => get_object o key
  | None => Normal VUndefined
  end.


(** *** Document elements and the console *)

Record Element : Type := mkElement {
  data_translate : string;   (* element.dataset.translate *)
  innerHTML : string
}.

(** [element.innerHTML = text] *)
Definition set_innerHTML (element : Element) (text : string) : Element :=
  {| data_translate := data_translate element; innerHTML := text |}.

Definition console : Type := list string.

(** [console.warn(line)] *)
Definition console_warn (out : console) (line : string) : console :=
  out ++ [line].

(** The callback of [forEach] mutates its element and may write to the
    console, or throws. *)
Definition callback : Type := Element -> console -> completion (Element * console).

(** [nodes.forEach(cb)], with what it leaves behind: the callback runs on
    every element in order; an error thrown by the callback ends the loop,
    the elements already visited keep what the callback did to them, and the
    others are as they were. *)
Fixpoint forEach_run (cb : callback) (nodes : list Element) (out : console)
  : list Element * console * option error :=
  match nodes with
  | [] => ([], out, None)
  | element :: rest =>
      match cb element out with
      | Normal (element', out') =>
          let '(rest', out'', thrown) := forEach_run cb rest out' in
          (element' :: rest', out'', thrown)
      | Throw e => (element :: rest, out, Some e)
      end
  end.

(** [nodes.forEach(cb)] as a completion. *)
Definition forEach (cb : callback) (nodes : list Element) (out : console)
  : completion (list Element * console) :=
  match forEach_run cb nodes out with
  | (nodes', out', None) => Normal (nodes', out')
  | (_, _, Some e) => Throw e
  end.

End JS.

Import JS.

(** The result of the specification's [lookup], and a third outcome that the
    specification does not have: the read itself throws. *)
Inductive LookupResult : Type :=
| Found (text : string)
| NotFound
| Raised (e : error).

(** The specification's reading of a fetched value: a truthy value is a
  translation, anything else is an absence. *)
Definition result_of (translation : value) : LookupResult :=
if ToBoolean translation then Found (ToString translation) else NotFound.

(** The same for a read that may throw. *)
Definition outcome_of (read : completion value) : LookupResult :=
  match read with
  | Normal translation => result_of translation
  | Throw e => Raised e
  end.

(** [sub] occurs in [s]. *)
Definition contains (s sub : string) : Prop :=
exists before after, s = before +:+ sub +:+ after.

(** ** translation-data-attributes.js: one flat map *)

Module DataAttributes.

Record Translator : Type := mkTranslator {
  translateMap : gmap string string
}.

(** [constructor(translateMap)]: [this.translateMap = translateMap || {}] *)
Definition new_Translator (arg : option (gmap string string)) : Translator :=
  {| translateMap := default ∅ arg |}.

Definition translate_callback (this : Translator) : callback :=
  fun element out =>
    let key := data_translate element in
    let translation := get (translateMap this) key in
    if ToBoolean translation then
      Normal (set_innerHTML element (ToString translation), out)
    else
      Normal (element, console_warn out ("Translation not found for key: " +:+ key)).

(** [translate()] has no return statement: it evaluates to undefined. *)
Definition translate (this : Translator) (nodes : list Element) (out : console)
  : completion (value * list Element * console) :=
  '(nodes', out') ← forEach (translate_callback this) nodes out;
  mret (VUndefined, nodes', out').

(** The lookup performed inside the callback. *)
Definition lookup (this : Translator) (key : string) : LookupResult :=
  result_of (get (translateMap this) key).

End DataAttributes.

(** ** The multi-language Translator: one map per language tag *)

Module MultiLanguage.

Record Translator : Type := mkTranslator {
  language : string;
  translations : gmap string (gmap string string)
}.

(** [constructor(language, translations)]:
    [this.language = language || 'en'; this.translations = translations || {}] *)
Definition new_Translator (language : option string)
    (translations : option (gmap string (gmap string string))) : Translator :=
  {| language :=
       match language with
       | Some tag => ToString (or_else (VString tag) (VString "en"))
       | None => "en"
       end;
     translations := default ∅ translations |}.

(** [setLanguage(language)]: [this.language = language] *)
Definition setLanguage (language : string) (this : Translator) : Translator :=
  {| language := language; translations := translations this |}.

(** [this.translations[this.language]?.[key]] *)
Definition read (this : Translator) (key : string) : completion value :=
  get_optional (get_table (translations this) (language this)) key.

Definition translate_callback (this : Translator) : callback :=
  fun element out =>
    let key := data_translate element in
    translation ← read this key;
    if ToBoolean translation then
      Normal (set_innerHTML element (ToString translation), out)
    else
      Normal (element,
              console_warn out ("Translation not found for key: " +:+ key
                                  +:+ " in language: " +:+ language this)).

(** [translate()] has no return statement: it evaluates to undefined. *)
Definition translate (this : Translator) (nodes : list Element) (out : console)
  : completion (value * list Element * console) :=
  '(nodes', out') ← forEach (translate_callback this) nodes out;
  mret (VUndefined, nodes', out').

(** The lookup performed inside the callback. *)
Definition lookup (this : Translator) (key : string) : LookupResult :=
  outcome_of (read this key).

End MultiLanguage.

(** ** The Proxy-based Translator: every property read is a lookup *)

Module ProxyTranslator.

(** The target object behind the proxy.  The constructor stores its argument
    as it is, so the field is undefined when no table is passed. *)
Record Translator : Type := mkTranslator {
  translations : option (gmap string string)
}.

(** [constructor(translations)]: [this.translations = translations], and the
    instance is returned wrapped in the proxy whose handler is [proxy_get]. *)
Definition new_Translator (translations : option (gmap string string)) : Translator :=
  {| translations := translations |}.

(** The [get] trap, for a property named by a string:
    [target.translations[prop] || `Translation not found for key: ${prop}`] *)
Definition proxy_get (target : Translator) (prop : string) : completion value :=
  translation ← get_member (translations target) prop;
  mret (or_else translation (VString ("Translation not found for key: " +:+ prop))).


(** The usage example of the source:
    [element.innerHTML = translations[key]] for every element. *)
Definition usage_callback (translations : Translator) : callback :=
  fun element out =>
    let key := data_translate element in
    translation ← proxy_get translations key;
    mret (set_innerHTML element (ToString translation), out).

Definition usage_example (translations : Translator) (nodes : list Element)
    (out : console) : completion (list Element * console) :=
  forEach (usage_callback translations) nodes out.

End ProxyTranslator.

(** ** The Intl.MessageFormat Translator *)

Module IntlTranslator.

(** [messageFormat messages locale id] stands for
    [new Intl.MessageFormat(messages, locale).format({ id })]; the formatter
    is supplied by the host, so it is a parameter of every definition. *)
Definition MessageFormat : Type := object -> string -> string -> value.

Record Translator : Type := mkTranslator {
  locale : string;
  translations : gmap string (gmap string string);
  formatter : string -> value
}.

(** [this.translations[locale] || {}]: every object is truthy. *)
Definition messages (translations : gmap string (gmap string string))
    (locale : string) : object :=
  default (Table ∅) (get_table translations locale).

(** [constructor(locale, translations)] *)
Definition new_Translator (messageFormat : MessageFormat) (locale : option string)
    (translations : option (gmap string (gmap string string))) : Translator :=
  let locale :=
    match locale with
    | Some tag => ToString (or_else (VString tag) (VString "en-US"))
    | None => "en-US"
    end in
  let translations := default ∅ translations in
  {| locale := locale;
     translations := translations;
     formatter := messageFormat (messages translations locale) locale |}.

(** [setLocale(locale)] *)
Definition setLocale (messageFormat : MessageFormat) (locale : string)
    (this : Translator) : Translator :=
  {| locale := locale;
     translations := translations this;
     formatter := messageFormat (messages (translations this) locale) locale |}.

Definition translate_callback (this : Translator) : callback :=
  fun element out =>
    let key := data_translate element in
    let translation := formatter this key in
    if ToBoolean translation then
      Normal (set_innerHTML element (ToString translation), out)
    else
      Normal (element,
              console_warn out ("Translation not found for key: " +:+ key
                                  +:+ " in locale: " +:+ locale this)).

Definition translate (this : Translator) (nodes : list Element) (out : console)
  : completion (value * list Element * console) :=
  '(nodes', out') ← forEach (translate_callback this) nodes out;
  mret (VUndefined, nodes', out').

(** Modelled from the spec: [Intl.MessageFormat] is not part of the
    repository; the specification abstracts it as a formatter "satisfied by a
    trivial passthrough", which returns the message stored under the id. *)
Definition passthrough : MessageFormat :=
  fun messages locale id =>
    match messages with
    | Table entries => get entries id
    | Builtin _ => VUndefined
    end.

End IntlTranslator.

(** ** The vocabulary of the specification *)

(** The summary [{applied, missing}] the specification expects [applyAll] to
    return. *)
Definition summary (applied missing : nat) : value :=
  VObject (PCons "applied" (VNumber applied) (PCons "missing" (VNumber missing) PNil)).

Definition is_found (r : LookupResult) : bool :=
  match r with
  | Found _ => true
  | NotFound => false
  | Raised _ => false
  end.

Section Requests.

(** The lookup of an engine, and the diagnostic line it prints for a key. *)
Variable find : string -> LookupResult.
Variable line : string -> string.

(** Number of requests whose key is found, and whose key is not. *)
Definition applied (nodes : list Element) : nat :=
  length (List.filter (fun element => is_found (find (data_translate element))) nodes).

Definition missing (nodes : list Element) : nat :=
  length (List.filter (fun element => negb (is_found (find (data_translate element)))) nodes).

(** What the static strategy does to one target: overwrite on [Found],
    leave as it is otherwise. *)
Definition substitute (element : Element) : Element :=
  match find (data_translate element) with
  | Found text => set_innerHTML element text
  | NotFound => element
  | Raised _ => element
  end.

(** The diagnostics of a batch: one line per missing key, in request order. *)
Definition diagnostics (nodes : list Element) : list string :=
  List.map (fun element => line (data_translate element))
    (List.filter (fun element => negb (is_found (find (data_translate element)))) nodes).

(** The same two for a batch in which a lookup may throw: the targets up to
    the first one whose lookup throws are treated, that one and those after
    it are left alone. *)
Fixpoint substitute_until_raised (nodes : list Element) : list Element :=
  match nodes with
  | [] => []
  | element :: rest =>
      match find (data_translate element) with
      | Found text => set_innerHTML element text :: substitute_until_raised rest
      | NotFound => element :: substitute_until_raised rest
      | Raised _ => element :: rest
      end
  end.

Fixpoint diagnostics_until_raised (nodes : list Element) : list string :=
  match nodes with
  | [] => []
  | element :: rest =>
      match find (data_translate element) with
      | Found _ => diagnostics_until_raised rest
      | NotFound => line (data_translate element) :: diagnostics_until_raised rest
      | Raised _ => []
      end
  end.

(** The first error a lookup of the batch throws, if any. *)
Fixpoint first_raised (nodes : list Element) : option error :=
  match nodes with
  | [] => None
  | element :: rest =>
      match find (data_translate element) with
      | Raised e => Some e
      | _ => first_raised rest
      end
  end.

End Requests.

(** The diagnostic lines of the two static-map variants. *)
Definition flat_line (key : string) : string :=
  "Translation not found for key: " +:+ key.

Definition language_line (tag key : string) : string :=
  "Translation not found for key: " +:+ key +:+ " in language: " +:+ tag.

(** The tables of the usage examples in the sources. *)
Definition flat_example : gmap string string :=
  {[ "hello" := "Привіт"; "goodbye" := "До побачення" ]}.

Definition languages_example : gmap string (gmap string string) :=
  {[ "en" := {[ "hello" := "Hello"; "goodbye" := "Goodbye" ]};
     "uk" := {[ "hello" := "Привіт"; "goodbye" := "До побачення" ]} ]}.

Definition locales_example : gmap string (gmap string string) :=
  {[ "en-US" := {[ "hello" := "Hello"; "goodbye" := "Goodbye" ]};
     "uk-UA" := {[ "hello" := "Привіт"; "goodbye" := "До побачення" ]} ]}.

(** [<p data-translate="key">content</p>] *)
Definition p (key content : string) : Element :=
  {| data_translate := key; innerHTML := content |}.

(** ** The static-map engines behind one contract

    The flat-map Translator and the multi-language Translator implement the
    same static strategy; the properties of that strategy are stated once,
    over either of them. *)

Inductive StaticEngine : Type :=
| FlatMap (this : DataAttributes.Translator)
| LanguageMaps (this : MultiLanguage.Translator).

(** The sub-map the engine resolves keys against: the whole table of the
    flat variant, the active language's sub-map (if any) otherwise. *)
Definition active_table (engine : StaticEngine) : option (gmap string string) :=
  match engine with
  | FlatMap this => Some (DataAttributes.translateMap this)
  | LanguageMaps this => MultiLanguage.translations this !! MultiLanguage.language this
  end.

Definition lookup (engine : StaticEngine) (key : string) : LookupResult :=
  match engine with
  | FlatMap this => DataAttributes.lookup this key
  | LanguageMaps this => MultiLanguage.lookup this key
  end.

Definition applyAll (engine : StaticEngine) (nodes : list Element) (out : console)
  : completion (value * list Element * console) :=
  match engine with
  | FlatMap this => DataAttributes.translate this nodes out
  | LanguageMaps this => MultiLanguage.translate this nodes out
  end.

Definition translate_callback (engine : StaticEngine) : callback :=
  match engine with
  | FlatMap this => DataAttributes.translate_callback this
  | LanguageMaps this => MultiLanguage.translate_callback this
  end.

Definition diagnostic (engine : StaticEngine) (key : string) : string :=
  match engine with
  | FlatMap _ => flat_line key
  | LanguageMaps this => language_line (MultiLanguage.language this) key
  end.

(** The targets and the console as a pass leaves them, whether it runs to
    its end or is cut short by an error. *)
Definition left_by (engine : StaticEngine) (nodes : list Element) (out : console)
  : list Element * console :=
  (forEach_run (translate_callback engine) nodes out).1.

(** The name [key] is one of the members a table inherits from
    [Object.prototype]. *)
Definition inherited (key : string) : bool :=
  ToBoolean (object_prototype_get (VBuiltin ObjectPrototype) key).

(** The active language is a tag of the table, or a name the table object
    does not inherit either: the engine then reads keys from a sub-map or
    from nothing, never from a built-in object.  (The flat variant has no
    language.) *)
Definition plain_language (engine : StaticEngine) : bool :=
  match engine with
  | FlatMap _ => true
  | LanguageMaps this =>
      match get_table (MultiLanguage.translations this) (MultiLanguage.language this) with
      | Some (Builtin _) => false
      | _ => true
      end
  end.

(** The engines of the usage examples. *)
Definition flat_engine : StaticEngine :=
  FlatMap (DataAttributes.new_Translator (Some flat_example)).

Definition uk_engine : StaticEngine :=
  LanguageMaps (MultiLanguage.new_Translator (Some "uk") (Some languages_example)).


(** ** Two passes in a row

    In the following definitions the second pass runs over the targets as
    the first pass left them.  That is what the second
    [document.querySelectorAll] returns as long as no target lies inside
    another and no text written by the first pass is markup that carries
    [data-translate] elements of its own. *)

(** A translation pass, the switch to another language, and a second pass. *)
Definition translate_switch_translate (this : MultiLanguage.Translator)
    (language : string) (nodes : list Element) (out : console)
  : completion (value * list Element * console) :=
  '(_, nodes', out') ← MultiLanguage.translate this nodes out;
  MultiLanguage.translate (MultiLanguage.setLanguage language this) nodes' out'.

(** The usage example of the proxy file, run twice. *)
Definition usage_example_twice (translations : ProxyTranslator.Translator)
    (nodes : list Element) (out : console) : completion (list Element * console) :=
  '(nodes', out') ← ProxyTranslator.usage_example translations nodes out;
  ProxyTranslator.usage_example translations nodes' out'.

(** The lookup inside the callback of the Intl.MessageFormat variant, and
    the line it prints. *)
Definition intl_lookup (this : IntlTranslator.Translator) (key : string) : LookupResult :=
  result_of (IntlTranslator.formatter this key).

Definition intl_line (this : IntlTranslator.Translator) (key : string) : string :=
  "Translation not found for key: " +:+ key
    +:+ " in locale: " +:+ IntlTranslator.locale this.

(** Every key that reads as truthy in [table] reads as truthy in [other]. *)
Definition covered_by (table other : gmap string string) : Prop :=
  forall key, ToBoolean (get table key) = true -> ToBoolean (get other key) = true.

(** * Properties *)

(** ** The scenarios of the specification, run on the code *)

Example scenario_1 :
  MultiLanguage.translate
    (MultiLanguage.new_Translator (Some "uk") (Some languages_example))
    [p "hello" "Hello"] []
  = Normal (VUndefined, [p "hello" "Привіт"], []).
Proof. reflexivity. Qed.

Example scenario_2 :
  MultiLanguage.translate
    (MultiLanguage.new_Translator (Some "uk")
       (Some {[ "en" := {[ "hello" := "Hello" ]}; "uk" := {[ "hello" := "Привіт" ]} ]}))
    [p "goodbye" "Goodbye"] []
  = Normal (VUndefined, [p "goodbye" "Goodbye"],
            ["Translation not found for key: goodbye in language: uk"]).
Proof. reflexivity. Qed.

Example scenario_3_dynamic :
  ProxyTranslator.usage_example
    (ProxyTranslator.new_Translator (Some {[ "hello" := "Привіт" ]}))
    [p "absent" "Absent"] []
  = Normal ([p "absent" "Translation not found for key: absent"], []).
Proof. reflexivity. Qed.

Example scenario_3_static :
  DataAttributes.translate
    (DataAttributes.new_Translator (Some {[ "hello" := "Привіт" ]}))
    [p "absent" "Absent"] []
  = Normal (VUndefined, [p "absent" "Absent"],
            ["Translation not found for key: absent"]).
Proof. reflexivity. Qed.

Example scenario_4 :
  MultiLanguage.translate
    (MultiLanguage.setLanguage "en"
       (MultiLanguage.new_Translator (Some "uk") (Some languages_example)))
    [p "hello" "Привіт"] []
  = Normal (VUndefined, [p "hello" "Hello"], []).
Proof. reflexivity. Qed.

(** The language defaults to 'en' when none, or an empty one, is given. *)
Example default_language :
  MultiLanguage.language (MultiLanguage.new_Translator None None) = "en"
  /\ MultiLanguage.language (MultiLanguage.new_Translator (Some "") None) = "en".
Proof. by split. Qed.

(** [setLocale] rebuilds the formatter over the new locale's messages. *)
Example setLocale_example :
  IntlTranslator.translate
    (IntlTranslator.setLocale IntlTranslator.passthrough "en-US"
       (IntlTranslator.new_Translator IntlTranslator.passthrough
          (Some "uk-UA") (Some locales_example)))
    [p "hello" "Привіт"] []
  = Normal (VUndefined, [p "hello" "Hello"], []).
Proof. reflexivity. Qed.

(** A language tag that names a member inherited from [Object.prototype] is
    resolved against that member: under the tag 'constructor' the key 'name'
    reads the name of the [Object] function. *)
Example inherited_language :
  MultiLanguage.translate
    (MultiLanguage.setLanguage "constructor"
       (MultiLanguage.new_Translator (Some "uk") (Some languages_example)))
    [p "name" "Name"; p "hello" "Hello"] []
  = Normal (VUndefined, [p "name" "Object"; p "hello" "Hello"],
            ["Translation not found for key: hello in language: constructor"]).
Proof. reflexivity. Qed.

(** ** Reading a value as a lookup result *)

Lemma result_of_found (translation : value) (text : string) :
  result_of translation = Found text ->
  ToBoolean translation = true /\ ToString translation = text.
Proof.
  unfold result_of. destruct (ToBoolean translation); [|discriminate].
  intros [= <-]. by split.
Qed.

Lemma result_of_missing (translation : value) :
  result_of translation = NotFound -> ToBoolean translation = false.
Proof.
  unfold result_of. by destruct (ToBoolean translation).
Qed.

Lemma result_of_not_raised (translation : value) (e : error) :
  result_of translation <> Raised e.
Proof. unfold result_of. by destruct (ToBoolean translation). Qed.

Lemma get_present (obj : gmap string string) (key text : string) :
  obj !! key = Some text -> text <> "" -> result_of (get obj key) = Found text.
Proof.
  intros Hkey Htext. unfold result_of, get. rewrite Hkey.
  by destruct text.
Qed.

(** A name that [Object.prototype] has no member for reads as undefined. *)
Lemma not_inherited_undefined (key : string) :
  inherited key = false ->
  object_prototype_get (VBuiltin ObjectPrototype) key = VUndefined.
Proof.
  unfold inherited, object_prototype_get.
  destruct (decide (key = "constructor")); [done|].
  destruct (decide (key = "__proto__")); [done|].
  by destruct (method_length object_prototype_methods key).
Qed.

Lemma get_absent (obj : gmap string string) (key : string) :
  obj !! key = None -> inherited key = false -> get obj key = VUndefined.
Proof.
  intros Hkey Hplain. unfold get. rewrite Hkey. by apply not_inherited_undefined.
Qed.

(** A member of [Object.prototype] read on a table is a built-in object or
    nothing, and it is truthy exactly for the inherited names. *)
Lemma get_inherited (obj : gmap string string) (key : string) :
  obj !! key = None ->
  get obj key = object_prototype_get (VBuiltin ObjectPrototype) key
  /\ ToBoolean (get obj key) = inherited key.
Proof. intros Hkey. unfold get, inherited. by rewrite Hkey. Qed.

Lemma object_prototype_get_cases (key : string) :
  (exists b, object_prototype_get (VBuiltin ObjectPrototype) key = VBuiltin b)
  \/ object_prototype_get (VBuiltin ObjectPrototype) key = VUndefined.
Proof.
  unfold object_prototype_get.
  destruct (decide (key = "constructor")); [left; eauto|].
  destruct (decide (key = "__proto__")); [left; eauto|].
  destruct (method_length object_prototype_methods key); [left; eauto|by right].
Qed.

(** ** The loop *)

Lemma bind_normal {A B : Type} (a : A) (k : A -> completion B) :
  (Normal a ≫= k) = k a.
Proof. reflexivity. Qed.

Lemma forEach_cons (cb : callback) element rest out element' out' :
  cb element out = Normal (element', out') ->
  forEach cb (element :: rest) out
  = '(rest', out'') ← forEach cb rest out';
    mret (element' :: rest', out'').
Proof.
  intros Hcb. unfold forEach. simpl. rewrite Hcb.
  by destruct (forEach_run cb rest out') as [[rest' out''] [e|]].
Qed.

Lemma forEach_cons_throw (cb : callback) element rest out e :
  cb element out = Throw e ->
  forEach cb (element :: rest) out = Throw e.
Proof. intros Hcb. unfold forEach. simpl. by rewrite Hcb. Qed.

(** ** The loop of a static engine *)

Section StaticLoop.

Variable find : string -> LookupResult.
Variable line : string -> string.
Variable cb : callback.

Hypothesis cb_found : forall element out text,
  find (data_translate element) = Found text ->
  cb element out = Normal (set_innerHTML element text, out).

Hypothesis cb_missing : forall element out,
  find (data_translate element) = NotFound ->
  cb element out = Normal (element, out ++ [line (data_translate element)]).

Hypothesis cb_raised : forall element out e,
  find (data_translate element) = Raised e ->
  cb element out = Throw e.

Lemma forEach_run_static (nodes : list Element) : forall out,
  forEach_run cb nodes out
  = (substitute_until_raised find nodes,
     out ++ diagnostics_until_raised find line nodes,
     first_raised find nodes).
Proof.
  induction nodes as [|element rest IH]; intros out; simpl.
  - by rewrite app_nil_r.
  - destruct (find (data_translate element)) as [text| |e] eqn:Hfind.
    + rewrite (cb_found _ _ _ Hfind), IH. reflexivity.
    + rewrite (cb_missing _ _ Hfind), IH. by rewrite <- app_assoc.
    + rewrite (cb_raised _ _ _ Hfind). by rewrite app_nil_r.
Qed.

End StaticLoop.

(** ** Counting and substituting *)

Section Counting.

Variable find : string -> LookupResult.
Variable line : string -> string.

Lemma substitute_key (element : Element) :
  data_translate (substitute find element) = data_translate element.
Proof. unfold substitute. by destruct (find (data_translate element)). Qed.

Lemma substitute_idempotent (element : Element) :
  substitute find (substitute find element) = substitute find element.
Proof.
  unfold substitute at 1. rewrite substitute_key.
  unfold substitute. by destruct (find (data_translate element)).
Qed.

Lemma substitute_missing (element : Element) :
  find (data_translate element) = NotFound -> substitute find element = element.
Proof. intros Hfind. unfold substitute. by rewrite Hfind. Qed.

Lemma diagnostics_length (nodes : list Element) :
  length (diagnostics find line nodes) = missing find nodes.
Proof. unfold diagnostics, missing. by rewrite length_map. Qed.

Lemma applied_plus_missing (nodes : list Element) :
  applied find nodes + missing find nodes = length nodes.
Proof.
  unfold applied, missing. induction nodes as [|element rest IH]; simpl; [done|].
  destruct (is_found (find (data_translate element))); simpl; lia.
Qed.

Lemma diagnostics_app (before after : list Element) :
  diagnostics find line (before ++ after)
  = diagnostics find line before ++ diagnostics find line after.
Proof. unfold diagnostics. by rewrite List.filter_app, List.map_app. Qed.

Lemma diagnostics_substitute (nodes : list Element) :
  diagnostics find line (List.map (substitute find) nodes) = diagnostics find line nodes.
Proof.
  unfold diagnostics. induction nodes as [|element rest IH]; simpl; [done|].
  rewrite substitute_key.
  destruct (is_found (find (data_translate element))); simpl;
    rewrite ?substitute_key; by rewrite IH.
Qed.

Lemma applied_same_keys (nodes : list Element) : forall others,
  List.map data_translate others = List.map data_translate nodes ->
  applied find others = applied find nodes.
Proof.
  unfold applied. induction nodes as [|element rest IH]; intros [|other others];
    simpl; try done.
  intros [= Hkey Hrest]. rewrite Hkey.
  destruct (is_found (find (data_translate element))); simpl; by rewrite (IH _ Hrest).
Qed.

Lemma missing_same_keys (nodes : list Element) : forall others,
  List.map data_translate others = List.map data_translate nodes ->
  missing find others = missing find nodes.
Proof.
  unfold missing. induction nodes as [|element rest IH]; intros [|other others];
    simpl; try done.
  intros [= Hkey Hrest]. rewrite Hkey.
  destruct (is_found (find (data_translate element))); simpl; by rewrite (IH _ Hrest).
Qed.

Lemma map_substitute_keys (nodes : list Element) :
  List.map data_translate (List.map (substitute find) nodes)
  = List.map data_translate nodes.
Proof.
  rewrite List.map_map. apply List.map_ext. intros element. apply substitute_key.
Qed.

Lemma applied_substitute (nodes : list Element) :
  applied find (List.map (substitute find) nodes) = applied find nodes.
Proof. apply applied_same_keys, map_substitute_keys. Qed.

Lemma missing_substitute (nodes : list Element) :
  missing find (List.map (substitute find) nodes) = missing find nodes.
Proof. apply missing_same_keys, map_substitute_keys. Qed.

(** *** Batches in which a lookup may throw *)

Lemma until_raised_keys (nodes : list Element) :
  List.map data_translate (substitute_until_raised find nodes)
  = List.map data_translate nodes.
Proof.
  induction nodes as [|element rest IH]; simpl; [done|].
  destruct (find (data_translate element)); simpl; by rewrite ?IH.
Qed.

Lemma until_raised_idempotent (nodes : list Element) :
  substitute_until_raised find (substitute_until_raised find nodes)
  = substitute_until_raised find nodes.
Proof.
  induction nodes as [|element rest IH]; simpl; [done|].
  destruct (find (data_translate element)) as [text| |e] eqn:Hfind; simpl;
    rewrite Hfind; by rewrite ?IH.
Qed.

Lemma diagnostics_until_raised_again (nodes : list Element) :
  diagnostics_until_raised find line (substitute_until_raised find nodes)
  = diagnostics_until_raised find line nodes.
Proof.
  induction nodes as [|element rest IH]; simpl; [done|].
  destruct (find (data_translate element)) as [text| |e] eqn:Hfind; simpl;
    rewrite Hfind; by rewrite ?IH.
Qed.

Lemma first_raised_again (nodes : list Element) :
  first_raised find (substitute_until_raised find nodes) = first_raised find nodes.
Proof.
  induction nodes as [|element rest IH]; simpl; [done|].
  destruct (find (data_translate element)) as [text| |e] eqn:Hfind; simpl;
    rewrite Hfind; by rewrite ?IH.
Qed.

(** When no lookup of the batch throws, every target is treated. *)
Lemma nothing_raised (nodes : list Element) :
  first_raised find nodes = None ->
  substitute_until_raised find nodes = List.map (substitute find) nodes
  /\ diagnostics_until_raised find line nodes = diagnostics find line nodes.
Proof.
  unfold diagnostics.
  induction nodes as [|element rest IH]; simpl; [done|].
  unfold substitute at 1.
  destruct (find (data_translate element)) as [text| |e] eqn:Hfind; simpl;
    [| |done]; intros [-> ->]%IH; done.
Qed.

Lemma never_raised (nodes : list Element) :
  (forall key e, find key <> Raised e) -> first_raised find nodes = None.
Proof.
  intros Hnever. induction nodes as [|element rest IH]; simpl; [done|].
  destruct (find (data_translate element)) as [text| |e] eqn:Hfind; [done..|].
  by destruct (Hnever _ _ Hfind).
Qed.

Lemma first_raised_app (before after : list Element) :
  first_raised find before = None ->
  first_raised find (before ++ after) = first_raised find after.
Proof.
  induction before as [|element rest IH]; simpl; [done|].
  by destruct (find (data_translate element)).
Qed.

End Counting.

(** ** The static engines run the static loop *)

Lemma outcome_of_found (read : completion value) (text : string) :
  outcome_of read = Found text ->
  exists translation,
    read = Normal translation
    /\ ToBoolean translation = true /\ ToString translation = text.
Proof.
  destruct read as [translation|e]; [|discriminate]. simpl.
  intros Hfound%result_of_found. by exists translation.
Qed.

Lemma outcome_of_missing (read : completion value) :
  outcome_of read = NotFound ->
  exists translation, read = Normal translation /\ ToBoolean translation = false.
Proof.
  destruct read as [translation|e]; [|discriminate]. simpl.
  intros Hmissing%result_of_missing. by exists translation.
Qed.

Lemma outcome_of_raised (read : completion value) (e : error) :
  outcome_of read = Raised e -> read = Throw e.
Proof.
  destruct read as [translation|e']; simpl.
  - intros H. by destruct (result_of_not_raised _ _ H).
  - by intros [= ->].
Qed.

Lemma translate_callback_found (engine : StaticEngine) element out text :
  lookup engine (data_translate element) = Found text ->
  translate_callback engine element out = Normal (set_innerHTML element text, out).
Proof.
  destruct engine as [this|this]; simpl.
  - unfold DataAttributes.lookup, DataAttributes.translate_callback.
    intros [Htrue <-]%result_of_found. by rewrite Htrue.
  - unfold MultiLanguage.lookup, MultiLanguage.translate_callback.
    intros (translation & -> & Htrue & <-)%outcome_of_found.
    rewrite bind_normal. by rewrite Htrue.
Qed.

Lemma translate_callback_missing (engine : StaticEngine) element out :
  lookup engine (data_translate element) = NotFound ->
  translate_callback engine element out
  = Normal (element, out ++ [diagnostic engine (data_translate element)]).
Proof.
  destruct engine as [this|this]; simpl.
  - unfold DataAttributes.lookup, DataAttributes.translate_callback.
    intros Hfalse%result_of_missing. by rewrite Hfalse.
  - unfold MultiLanguage.lookup, MultiLanguage.translate_callback.
    intros (translation & -> & Hfalse)%outcome_of_missing.
    rewrite bind_normal. by rewrite Hfalse.
Qed.

Lemma translate_callback_raised (engine : StaticEngine) element out e :
  lookup engine (data_translate element) = Raised e ->
  translate_callback engine element out = Throw e.
Proof.
  destruct engine as [this|this]; simpl.
  - unfold DataAttributes.lookup. intros H. by destruct (result_of_not_raised _ _ H).
  - unfold MultiLanguage.lookup, MultiLanguage.translate_callback.
    by intros ->%outcome_of_raised.
Qed.

(** What the loop of an engine leaves, in one equation. *)
Lemma engine_forEach_run (engine : StaticEngine) nodes out :
  forEach_run (translate_callback engine) nodes out
  = (substitute_until_raised (lookup engine) nodes,
     out ++ diagnostics_until_raised (lookup engine) (diagnostic engine) nodes,
     first_raised (lookup engine) nodes).
Proof.
  apply forEach_run_static.
  - apply translate_callback_found.
  - apply translate_callback_missing.
  - apply translate_callback_raised.
Qed.

Lemma applyAll_forEach (engine : StaticEngine) nodes out :
  applyAll engine nodes out
  = '(nodes', out') ← forEach (translate_callback engine) nodes out;
    mret (VUndefined, nodes', out').
Proof. by destruct engine. Qed.

(** The completion of a pass: normal when no lookup throws, else the first
    error thrown. *)
Lemma applyAll_outcome (engine : StaticEngine) nodes out :
  applyAll engine nodes out
  = match first_raised (lookup engine) nodes with
    | None =>
        Normal (VUndefined,
                substitute_until_raised (lookup engine) nodes,
                out ++ diagnostics_until_raised (lookup engine) (diagnostic engine) nodes)
    | Some e => Throw e
    end.
Proof.
  rewrite applyAll_forEach. unfold forEach. rewrite engine_forEach_run.
  by destruct (first_raised (lookup engine) nodes).
Qed.

Lemma left_by_run (engine : StaticEngine) nodes out :
  left_by engine nodes out
  = (substitute_until_raised (lookup engine) nodes,
     out ++ diagnostics_until_raised (lookup engine) (diagnostic engine) nodes).
Proof. unfold left_by. by rewrite engine_forEach_run. Qed.

(** A pass in which no lookup throws, in one equation. *)
Lemma applyAll_complete (engine : StaticEngine) nodes out :
  first_raised (lookup engine) nodes = None ->
  applyAll engine nodes out
  = Normal (VUndefined,
            List.map (substitute (lookup engine)) nodes,
            out ++ diagnostics (lookup engine) (diagnostic engine) nodes).
Proof.
  intros Hnone. rewrite applyAll_outcome, Hnone.
  by destruct (nothing_raised (lookup engine) (diagnostic engine) nodes Hnone) as [-> ->].
Qed.

(** Reads from a sub-map or from nothing never throw. *)
Lemma plain_never_raises (engine : StaticEngine) :
  plain_language engine = true -> forall key e, lookup engine key <> Raised e.
Proof.
  destruct engine as [this|this]; simpl.
  - intros _ key e. apply result_of_not_raised.
  - unfold MultiLanguage.lookup, MultiLanguage.read.
    destruct (get_table (MultiLanguage.translations this) (MultiLanguage.language this))
      as [[entries|b]|]; [|done|]; intros _ key e; apply result_of_not_raised.
Qed.

(** What a pass of an engine with a plain language does, in one equation. *)
Lemma applyAll_run (engine : StaticEngine) nodes out :
  plain_language engine = true ->
  applyAll engine nodes out
  = Normal (VUndefined,
            List.map (substitute (lookup engine)) nodes,
            out ++ diagnostics (lookup engine) (diagnostic engine) nodes).
Proof.
  intros Hplain. apply applyAll_complete, never_raised.
  by apply plain_never_raises.
Qed.

Lemma own_is_plain (engine : StaticEngine) (table : gmap string string) :
  active_table engine = Some table -> plain_language engine = true.
Proof.
  destruct engine as [this|this]; simpl; [done|].
  unfold get_table. by intros ->.
Qed.

Lemma lookup_own (engine : StaticEngine) (table : gmap string string) (key : string) :
  active_table engine = Some table ->
  lookup engine key = result_of (get table key).
Proof.
  destruct engine as [this|this]; simpl.
  - by intros [= <-].
  - unfold MultiLanguage.lookup, MultiLanguage.read, get_table. by intros ->.
Qed.

Lemma append_empty (s : string) : s +:+ "" = s.
Proof.
  induction s as [|a s IH]; [done|].
  change (String a (s +:+ "") = String a s). by rewrite IH.
Qed.

Lemma contains_suffix (prefix sub : string) : contains (prefix +:+ sub) sub.
Proof. exists prefix, "". by rewrite append_empty. Qed.

(** ** Present and absent keys *)

(** C1. For every key K present in the active language's sub-map with a
    non-empty value V, lookup(K) is Found(V), and translate() sets the
    content of an element whose data-translate key is K to V, wherever the
    element stands in the batch. *)
Theorem present_key_is_applied (engine : StaticEngine)
    (table : gmap string string) (K V : string) :
  active_table engine = Some table ->
  table !! K = Some V ->
  V <> "" ->
  lookup engine K = Found V /\
  forall before content after out,
    exists before' after' out',
      applyAll engine (before ++ p K content :: after) out
      = Normal (VUndefined, before' ++ p K V :: after', out')
      /\ length before' = length before.
Proof.
  intros Hactive HK HV.
  assert (lookup engine K = Found V) as Hfound.
  { rewrite (lookup_own _ _ _ Hactive). by apply get_present. }
  split; [done|].
  intros before content after out.
  exists (List.map (substitute (lookup engine)) before),
         (List.map (substitute (lookup engine)) after),
         (out ++ diagnostics (lookup engine) (diagnostic engine)
                   (before ++ p K content :: after)).
  split; [|by rewrite length_map].
  rewrite applyAll_run by (by eapply own_is_plain). rewrite List.map_app. simpl.
  unfold substitute at 2. simpl. by rewrite Hfound.
Qed.

Lemma present_key_is_applied_witness :
  lookup uk_engine "hello" = Found "Привіт" /\
  forall before content after out,
    exists before' after' out',
      applyAll uk_engine (before ++ p "hello" content :: after) out
      = Normal (VUndefined, before' ++ p "hello" "Привіт" :: after', out')
      /\ length before' = length before.
Proof.
  apply (present_key_is_applied uk_engine
           {[ "hello" := "Привіт"; "goodbye" := "До побачення" ]}).
  - reflexivity.
  - reflexivity.
  - discriminate.
Defined.

(** C2. A key that is absent from the active sub-map but names a member
    inherited from Object.prototype is found all the same: the read gives
    the built-in object, the static strategy writes its text into the target
    and prints no diagnostic, and the proxy returns the built-in object
    itself, not a placeholder string. *)
Theorem inherited_key_is_found (engine : StaticEngine)
    (table : gmap string string) (K content : string) (out : console) :
  active_table engine = Some table ->
  table !! K = None ->
  inherited K = true ->
  exists b,
    get table K = VBuiltin b
    /\ lookup engine K = Found (builtin_text b)
    /\ applyAll engine [p K content] out
       = Normal (VUndefined, [p K (builtin_text b)], out)
    /\ ProxyTranslator.proxy_get (ProxyTranslator.new_Translator (Some table)) K
       = Normal (VBuiltin b).
Proof.
  intros Hactive HK Hinherited.
  destruct (get_inherited table K HK) as [Hget Htruthy].
  destruct (object_prototype_get_cases K) as [[b Hb]|Hb].
  2: { unfold inherited in Hinherited. rewrite Hb in Hinherited. discriminate. }
  exists b. rewrite Hb in Hget.
  assert (lookup engine K = Found (builtin_text b)) as Hfound.
  { rewrite (lookup_own _ _ _ Hactive), Hget. reflexivity. }
  split; [done|]. split; [done|]. split.
  - rewrite applyAll_run by (by eapply own_is_plain). simpl.
    unfold substitute, diagnostics. simpl. rewrite Hfound. simpl.
    by rewrite app_nil_r.
  - unfold ProxyTranslator.proxy_get. simpl. by rewrite Hget.
Qed.

Lemma inherited_key_is_found_witness :
  exists b,
    get flat_example "constructor" = VBuiltin b
    /\ lookup flat_engine "constructor" = Found (builtin_text b)
    /\ applyAll flat_engine [p "constructor" "Constructor"] []
       = Normal (VUndefined, [p "constructor" (builtin_text b)], [])
    /\ ProxyTranslator.proxy_get (ProxyTranslator.new_Translator (Some flat_example))
         "constructor"
       = Normal (VBuiltin b).
Proof.
  apply (inherited_key_is_found flat_engine flat_example "constructor" "Constructor" []).
  - reflexivity.
  - reflexivity.
  - reflexivity.
Defined.

(** What the code does at the keys 'constructor' and 'toString', neither of
    them a key of the example table. *)
Example inherited_key_examples :
  DataAttributes.translate (DataAttributes.new_Translator (Some flat_example))
    [p "constructor" "Constructor"] []
  = Normal (VUndefined, [p "constructor" "function Object() { [native code] }"], [])
  /\ MultiLanguage.translate
       (MultiLanguage.new_Translator (Some "uk") (Some languages_example))
       [p "toString" "To string"] []
     = Normal (VUndefined, [p "toString" "function toString() { [native code] }"], [])
  /\ ProxyTranslator.proxy_get (ProxyTranslator.new_Translator (Some flat_example))
       "toString"
     = Normal (VBuiltin (NativeFunction "toString" 0)).
Proof. by repeat split. Qed.

(** ** The result of a batch *)

(** C3, counterexample.  Scenario 1 of the specification: the run writes the
    text, and what it returns is undefined, not the summary {applied: 1,
    missing: 0}. *)
Lemma applyAll_returns_no_summary :
  applyAll uk_engine [p "hello" "Hello"] []
  = Normal (VUndefined, [p "hello" "Привіт"], [])
  /\ VUndefined <> summary 1 0.
Proof. split; [reflexivity | discriminate]. Qed.

(** C3, amended.  When the active language is a tag of the table or names
    nothing the table object inherits, translate() returns undefined for
    every sequence of requests; the counts show in its effects only: every
    request whose key is found has its content overwritten with the text
    found, every other request keeps its content, and exactly one diagnostic
    is printed per request whose key is not found, so that the requests
    overwritten and the diagnostics printed add up to the number of
    requests. *)
Theorem applyAll_effects_count (engine : StaticEngine) (nodes : list Element)
    (out : console) :
  plain_language engine = true ->
  exists nodes' lines,
    applyAll engine nodes out = Normal (VUndefined, nodes', out ++ lines)
    /\ nodes' = List.map (substitute (lookup engine)) nodes
    /\ length lines = missing (lookup engine) nodes
    /\ applied (lookup engine) nodes + length lines = length nodes.
Proof.
  intros Hplain.
  exists (List.map (substitute (lookup engine)) nodes),
         (diagnostics (lookup engine) (diagnostic engine) nodes).
  rewrite applyAll_run by done. rewrite diagnostics_length.
  repeat split. apply applied_plus_missing.
Qed.

Lemma applyAll_effects_count_witness :
  exists nodes' lines,
    applyAll uk_engine [p "hello" "Hello"; p "farewell" "Farewell"] []
    = Normal (VUndefined, nodes', [] ++ lines)
    /\ nodes' = List.map (substitute (lookup uk_engine))
                  [p "hello" "Hello"; p "farewell" "Farewell"]
    /\ length lines
       = missing (lookup uk_engine) [p "hello" "Hello"; p "farewell" "Farewell"]
    /\ applied (lookup uk_engine) [p "hello" "Hello"; p "farewell" "Farewell"]
       + length lines
       = length [p "hello" "Hello"; p "farewell" "Farewell"].
Proof.
  apply (applyAll_effects_count uk_engine
           [p "hello" "Hello"; p "farewell" "Farewell"] []).
  reflexivity.
Defined.




(** ** A Translator built without a table *)

(** C5. The proxy built with no table at all fails: every property read
    through it throws a TypeError, and so does the first step of the usage
    example's loop. *)
Theorem missing_table_lookup (key : string) :
  ProxyTranslator.proxy_get (ProxyTranslator.new_Translator None) key
  = Throw (TypeError ("Cannot read properties of undefined (reading '"
                        +:+ key +:+ "')"))
  /\ (forall content rest out,
        ProxyTranslator.usage_example (ProxyTranslator.new_Translator None)
          (p key content :: rest) out
        = Throw (TypeError ("Cannot read properties of undefined (reading '"
                              +:+ key +:+ "')"))).
Proof. split; reflexivity. Qed.

(** ** Running a batch twice *)

(** C6. For the static strategy a second run over the targets left by the
    first, with the same table and language, leaves every target as the first
    run left it and prints the same diagnostics again; the numbers of requests
    found and not found are the same in both runs.  This holds for a run that
    is cut short by an error as well: the second run then stops at the same
    target with the same error. *)
Theorem applyAll_idempotent (engine : StaticEngine) (nodes : list Element)
    (out : console) :
  exists nodes' lines,
    left_by engine nodes out = (nodes', out ++ lines)
    /\ (forall out', left_by engine nodes' out' = (nodes', out' ++ lines))
    /\ ((applyAll engine nodes out = Normal (VUndefined, nodes', out ++ lines)
         /\ (forall out', applyAll engine nodes' out'
                          = Normal (VUndefined, nodes', out' ++ lines))
         /\ length lines = missing (lookup engine) nodes)
        \/ (exists e,
              applyAll engine nodes out = Throw e
              /\ forall out', applyAll engine nodes' out' = Throw e))
    /\ (plain_language engine = true ->
        applyAll engine nodes out = Normal (VUndefined, nodes', out ++ lines))
    /\ applied (lookup engine) nodes' = applied (lookup engine) nodes
    /\ missing (lookup engine) nodes' = missing (lookup engine) nodes.
Proof.
  exists (substitute_until_raised (lookup engine) nodes),
         (diagnostics_until_raised (lookup engine) (diagnostic engine) nodes).
  split; [apply left_by_run|]. split; [|split; [|split; [|split]]].
  - intros out'. rewrite left_by_run.
    by rewrite until_raised_idempotent, diagnostics_until_raised_again.
  - destruct (first_raised (lookup engine) nodes) as [e|] eqn:Hraised.
    + right. exists e. split.
      * by rewrite applyAll_outcome, Hraised.
      * intros out'. by rewrite applyAll_outcome, first_raised_again, Hraised.
    + left. split; [|split].
      * by rewrite applyAll_outcome, Hraised.
      * intros out'. rewrite applyAll_outcome, first_raised_again, Hraised.
        by rewrite until_raised_idempotent, diagnostics_until_raised_again.
      * destruct (nothing_raised _ (diagnostic engine) _ Hraised) as [_ ->].
        apply diagnostics_length.
  - intros Hplain. rewrite applyAll_outcome.
    by rewrite (never_raised _ _ (plain_never_raises _ Hplain)).
  - apply applied_same_keys, until_raised_keys.
  - apply missing_same_keys, until_raised_keys.
Qed.

(** ** The diagnostic line *)

(** C7, counterexample.  The Intl.MessageFormat variant is a multi-language
    variant, and the line it prints for a missing key says "in locale:", not
    "in language:". *)
Lemma locale_variant_prints_locale :
  IntlTranslator.translate
    (IntlTranslator.new_Translator IntlTranslator.passthrough
       (Some "uk-UA") (Some locales_example))
    [p "farewell" "Farewell"] []
  = Normal (VUndefined, [p "farewell" "Farewell"],
            ["Translation not found for key: farewell in locale: uk-UA"])
  /\ "Translation not found for key: farewell in locale: uk-UA"
     <> language_line "uk-UA" "farewell".
Proof. split; [reflexivity | discriminate]. Qed.

Lemma applyAll_single_missing (engine : StaticEngine) (element : Element)
    (out : console) :
  lookup engine (data_translate element) = NotFound ->
  applyAll engine [element] out
  = Normal (VUndefined, [element],
            out ++ [diagnostic engine (data_translate element)]).
Proof.
  intros Hmissing. rewrite applyAll_outcome. simpl. by rewrite Hmissing.
Qed.

(** C7, amended.  For every missing key the line printed is exactly
    'Translation not found for key: <key>' in the flat-map variant, exactly
    'Translation not found for key: <key> in language: <tag>' in the
    multi-language map variant, and exactly
    'Translation not found for key: <key> in locale: <tag>' in the
    Intl.MessageFormat variant. *)
Theorem diagnostic_line_per_variant :
  (forall (this : DataAttributes.Translator) element out,
      DataAttributes.lookup this (data_translate element) = NotFound ->
      DataAttributes.translate this [element] out
      = Normal (VUndefined, [element],
                out ++ ["Translation not found for key: "
                          +:+ data_translate element]))
  /\ (forall (this : MultiLanguage.Translator) element out,
        MultiLanguage.lookup this (data_translate element) = NotFound ->
        MultiLanguage.translate this [element] out
        = Normal (VUndefined, [element],
                  out ++ ["Translation not found for key: "
                            +:+ data_translate element
                            +:+ " in language: " +:+ MultiLanguage.language this]))
  /\ (forall (this : IntlTranslator.Translator) element out,
        ToBoolean (IntlTranslator.formatter this (data_translate element)) = false ->
        IntlTranslator.translate this [element] out
        = Normal (VUndefined, [element],
                  out ++ ["Translation not found for key: "
                            +:+ data_translate element
                            +:+ " in locale: " +:+ IntlTranslator.locale this])).
Proof.
  split; [|split].
  - intros this element out Hmissing.
    exact (applyAll_single_missing (FlatMap this) element out Hmissing).
  - intros this element out Hmissing.
    exact (applyAll_single_missing (LanguageMaps this) element out Hmissing).
  - intros this element out Hfalse.
    unfold IntlTranslator.translate.
    erewrite forEach_cons.
    2: { unfold IntlTranslator.translate_callback. rewrite Hfalse. reflexivity. }
    reflexivity.
Qed.

Lemma diagnostic_line_per_variant_witness :
  DataAttributes.translate (DataAttributes.new_Translator (Some flat_example))
    [p "absent" "Absent"] []
  = Normal (VUndefined, [p "absent" "Absent"],
            [] ++ ["Translation not found for key: " +:+ "absent"])
  /\ MultiLanguage.translate
       (MultiLanguage.new_Translator (Some "uk") (Some languages_example))
       [p "farewell" "Farewell"] []
     = Normal (VUndefined, [p "farewell" "Farewell"],
               [] ++ ["Translation not found for key: " +:+ "farewell"
                        +:+ " in language: " +:+ "uk"])
  /\ IntlTranslator.translate
       (IntlTranslator.new_Translator IntlTranslator.passthrough
          (Some "uk-UA") (Some locales_example))
       [p "farewell" "Farewell"] []
     = Normal (VUndefined, [p "farewell" "Farewell"],
               [] ++ ["Translation not found for key: " +:+ "farewell"
                        +:+ " in locale: " +:+ "uk-UA"]).
Proof.
  split; [|split].
  - apply (proj1 diagnostic_line_per_variant
             (DataAttributes.new_Translator (Some flat_example))
             (p "absent" "Absent") []).
    reflexivity.
  - apply (proj1 (proj2 diagnostic_line_per_variant)
             (MultiLanguage.new_Translator (Some "uk") (Some languages_example))
             (p "farewell" "Farewell") []).
    reflexivity.
  - apply (proj2 (proj2 diagnostic_line_per_variant)
             (IntlTranslator.new_Translator IntlTranslator.passthrough
                (Some "uk-UA") (Some locales_example))
             (p "farewell" "Farewell") []).
    reflexivity.
Defined.

(** ** Switching the language *)

Lemma first_raised_none_lookup (find : string -> LookupResult)
    (nodes : list Element) (i : nat) (element : Element) :
  first_raised find nodes = None ->
  nodes !! i = Some element ->
  forall e, find (data_translate element) <> Raised e.
Proof.
  revert i. induction nodes as [|first rest IH]; intros i Hnone Hi e; [done|].
  simpl in Hnone. destruct i as [|i]; simpl in Hi.
  - injection Hi as <-. intros Hraised. by rewrite Hraised in Hnone.
  - destruct (find (data_translate first)); try done; by eapply IH.
Qed.

Lemma first_raised_some_lookup (find : string -> LookupResult)
    (nodes : list Element) (e : error) :
  first_raised find nodes = Some e ->
  exists i element,
    nodes !! i = Some element /\ find (data_translate element) = Raised e.
Proof.
  induction nodes as [|first rest IH]; simpl; [done|].
  destruct (find (data_translate first)) as [text| |e'] eqn:Hfind.
  - intros (i & element & Hi & Hraised)%IH. by exists (S i), element.
  - intros (i & element & Hi & Hraised)%IH. by exists (S i), element.
  - intros [= ->]. by exists 0, first.
Qed.

Lemma lookup_map_substitute (find : string -> LookupResult) (nodes : list Element)
    (i : nat) (element : Element) :
  nodes !! i = Some element ->
  List.map (substitute find) nodes !! i = Some (substitute find element).
Proof.
  intros Hi.
  change (List.map (substitute find) nodes) with (substitute find <$> nodes).
  by rewrite list_lookup_fmap, Hi.
Qed.

(** C8. A language tag that the table has no sub-map for is not always
    resolved to nothing: after setLanguage('constructor') the key 'name' is
    found, in the Object function that the table object inherits under that
    tag, and the target is given the text 'Object'; and under a tag of the
    table, the key 'constructor' is found although the sub-map has no such
    entry, and the target is given the text of the Object function. *)
Theorem setLanguage_inherited_tag :
  languages_example !! "constructor" = None
  /\ MultiLanguage.translate
       (MultiLanguage.setLanguage "constructor"
          (MultiLanguage.new_Translator (Some "uk") (Some languages_example)))
       [p "name" "Name"; p "hello" "Hello"] []
     = Normal (VUndefined, [p "name" "Object"; p "hello" "Hello"],
               ["Translation not found for key: hello in language: constructor"])
  /\ languages_example !! "en" = Some {[ "hello" := "Hello"; "goodbye" := "Goodbye" ]}
  /\ MultiLanguage.translate
       (MultiLanguage.setLanguage "en"
          (MultiLanguage.new_Translator (Some "uk") (Some languages_example)))
       [p "constructor" "Constructor"] []
     = Normal (VUndefined,
               [p "constructor" "function Object() { [native code] }"], []).
Proof. by repeat split. Qed.

(** X20. After setLanguage(T), translate() resolves every key by the read
    table[T]?.[key] and by nothing else: the completion of the pass and
    everything it leaves are the same whatever language was active before
    the switch; when the pass completes, a target whose read is truthy is
    given exactly that value and every other target keeps its content; the
    pass does complete whenever T is a tag of the table or names nothing the
    table object inherits, and when it throws, the error is that of the read
    of one of its keys under T. *)
Theorem setLanguage_then_translate (this : MultiLanguage.Translator) (T : string)
    (nodes : list Element) (out : console) :
  (forall previous,
      MultiLanguage.translations previous = MultiLanguage.translations this ->
      MultiLanguage.translate (MultiLanguage.setLanguage T previous) nodes out
      = MultiLanguage.translate (MultiLanguage.setLanguage T this) nodes out
      /\ left_by (LanguageMaps (MultiLanguage.setLanguage T previous)) nodes out
         = left_by (LanguageMaps (MultiLanguage.setLanguage T this)) nodes out)
  /\ (forall nodes' out',
        MultiLanguage.translate (MultiLanguage.setLanguage T this) nodes out
        = Normal (VUndefined, nodes', out') ->
        length nodes' = length nodes
        /\ forall i element, nodes !! i = Some element ->
             exists translation,
               get_optional (get_table (MultiLanguage.translations this) T)
                 (data_translate element)
               = Normal translation
               /\ nodes' !! i
                  = Some (if ToBoolean translation
                          then set_innerHTML element (ToString translation)
                          else element))
  /\ (plain_language (LanguageMaps (MultiLanguage.setLanguage T this)) = true ->
      exists nodes' out',
        MultiLanguage.translate (MultiLanguage.setLanguage T this) nodes out
        = Normal (VUndefined, nodes', out'))
  /\ (forall e,
        MultiLanguage.translate (MultiLanguage.setLanguage T this) nodes out = Throw e ->
        exists i element,
          nodes !! i = Some element
          /\ get_optional (get_table (MultiLanguage.translations this) T)
               (data_translate element)
             = Throw e).
Proof.
  set (engine := LanguageMaps (MultiLanguage.setLanguage T this)).
  split; [|split; [|split]].
  - intros previous Hsame.
    assert (MultiLanguage.setLanguage T previous = MultiLanguage.setLanguage T this)
      as ->; [|done].
    unfold MultiLanguage.setLanguage. by rewrite Hsame.
  - intros nodes' out' Hrun.
    change (applyAll engine nodes out = Normal (VUndefined, nodes', out')) in Hrun.
    rewrite applyAll_outcome in Hrun.
    destruct (first_raised (lookup engine) nodes) as [e|] eqn:Hraised; [done|].
    destruct (nothing_raised _ (diagnostic engine) _ Hraised) as [Hnodes _].
    rewrite Hnodes in Hrun. injection Hrun as <- _.
    split; [by rewrite length_map|].
    intros i element Hi. rewrite (lookup_map_substitute _ _ _ _ Hi).
    pose proof (first_raised_none_lookup _ _ _ _ Hraised Hi) as Hnever.
    unfold substitute.
    change (lookup engine (data_translate element))
      with (outcome_of
              (get_optional (get_table (MultiLanguage.translations this) T)
                 (data_translate element))) in *.
    destruct (get_optional (get_table (MultiLanguage.translations this) T)
                (data_translate element)) as [translation|e].
    + exists translation. split; [done|]. simpl. unfold result_of.
      by destruct (ToBoolean translation).
    + by destruct (Hnever e).
  - intros Hplain. eexists _, _. by apply (applyAll_run engine).
  - intros e Hrun.
    change (applyAll engine nodes out = Throw e) in Hrun.
    rewrite applyAll_outcome in Hrun.
    destruct (first_raised (lookup engine) nodes) as [e'|] eqn:Hraised; [|done].
    injection Hrun as ->.
    destruct (first_raised_some_lookup _ _ _ Hraised) as (i & element & Hi & Hfind).
    exists i, element. split; [done|]. by apply outcome_of_raised.
Qed.

(** ** The proxy *)

Lemma proxy_get_table (table : gmap string string) (prop : string) :
  ProxyTranslator.proxy_get (ProxyTranslator.new_Translator (Some table)) prop
  = Normal (or_else (get table prop)
              (VString ("Translation not found for key: " +:+ prop))).
Proof. reflexivity. Qed.

(** C9. The usage example's loop does not write to every target: built with
    no table the proxy makes the loop throw at its first target, before
    anything is written; and over a table, a target whose key names a member
    inherited from Object.prototype is given the text of that built-in
    object, which is neither a text of the table nor the placeholder. *)
Theorem proxy_loop_failures :
  (forall key content rest out,
      ProxyTranslator.usage_example (ProxyTranslator.new_Translator None)
        (p key content :: rest) out
      = Throw (TypeError ("Cannot read properties of undefined (reading '"
                            +:+ key +:+ "')")))
  /\ ProxyTranslator.usage_example (ProxyTranslator.new_Translator (Some flat_example))
       [p "hello" "Hello"; p "toString" "To string"] []
     = Normal ([p "hello" "Привіт";
                p "toString" "function toString() { [native code] }"], [])
  /\ flat_example !! "toString" = None
  /\ "function toString() { [native code] }"
     <> "Translation not found for key: " +:+ "toString".
Proof. split; [reflexivity|]. by repeat split. Qed.



(** * Further properties of the code *)

(** ** Helpers *)

Lemma append_assoc (a b c : string) : (a +:+ b) +:+ c = a +:+ b +:+ c.
Proof.
  induction a as [|x a IH]; [done|].
  change (String x ((a +:+ b) +:+ c) = String x (a +:+ b +:+ c)). by rewrite IH.
Qed.

Lemma diagnostics_same_keys (find : string -> LookupResult) (line : string -> string)
    (change : Element -> Element) (nodes : list Element) :
  (forall element, data_translate (change element) = data_translate element) ->
  diagnostics find line (List.map change nodes) = diagnostics find line nodes.
Proof.
  intros Hkey. unfold diagnostics.
  induction nodes as [|element rest IH]; simpl; [done|].
  rewrite Hkey.
  destruct (is_found (find (data_translate element))); simpl;
    rewrite ?Hkey; by rewrite IH.
Qed.

Lemma lookup_missing_cases (engine : StaticEngine) (table : gmap string string)
    (key : string) :
  active_table engine = Some table ->
  table !! key = Some "" ->
  lookup engine key = NotFound.
Proof.
  intros Hactive Hkey. rewrite (lookup_own _ _ _ Hactive).
  unfold result_of, get. by rewrite Hkey.
Qed.

Lemma builtin_text_not_empty (b : builtin) : builtin_text b <> "".
Proof. destruct b; vm_compute; discriminate. Qed.

(** ** Keys that are in no table *)

(** X17. For every key K that is absent from the active sub-map and is not
    the name of a member inherited from Object.prototype, the static
    strategy finds nothing (the target keeps its content and the diagnostic
    is printed), while the proxy over the same map returns a placeholder
    string that contains K verbatim. *)
Theorem absent_key_not_found (engine : StaticEngine)
    (table : gmap string string) (K : string) :
  active_table engine = Some table ->
  table !! K = None ->
  inherited K = false ->
  lookup engine K = NotFound /\
  (forall content out,
      applyAll engine [p K content] out
      = Normal (VUndefined, [p K content], out ++ [diagnostic engine K])) /\
  exists placeholder,
    ProxyTranslator.proxy_get (ProxyTranslator.new_Translator (Some table)) K
    = Normal (VString placeholder)
    /\ placeholder = "Translation not found for key: " +:+ K
    /\ contains placeholder K.
Proof.
  intros Hactive HK Hplain.
  assert (lookup engine K = NotFound) as Hmissing.
  { rewrite (lookup_own _ _ _ Hactive). by rewrite get_absent. }
  split; [done|]. split.
  - intros content out. by apply applyAll_single_missing.
  - exists ("Translation not found for key: " +:+ K). split; [|split].
    + unfold ProxyTranslator.proxy_get. simpl. by rewrite get_absent.
    + reflexivity.
    + apply contains_suffix.
Qed.

Lemma absent_key_not_found_witness :
  lookup uk_engine "farewell" = NotFound /\
  (forall content out,
      applyAll uk_engine [p "farewell" content] out
      = Normal (VUndefined, [p "farewell" content],
                out ++ [diagnostic uk_engine "farewell"])) /\
  exists placeholder,
    ProxyTranslator.proxy_get
      (ProxyTranslator.new_Translator
         (Some {[ "hello" := "Привіт"; "goodbye" := "До побачення" ]})) "farewell"
    = Normal (VString placeholder)
    /\ placeholder = "Translation not found for key: " +:+ "farewell"
    /\ contains placeholder "farewell".
Proof.
  apply (absent_key_not_found uk_engine
           {[ "hello" := "Привіт"; "goodbye" := "До побачення" ]}).
  - reflexivity.
  - reflexivity.
  - reflexivity.
Defined.

(** X19. In the multi-language variant a language that has no sub-map and
    names nothing the table object inherits finds no key at all, not even a
    key that names a member of Object.prototype: the optional chaining stops
    at the undefined sub-map. *)
Theorem no_sub_map_finds_nothing (this : MultiLanguage.Translator)
    (key content : string) (out : console) :
  MultiLanguage.translations this !! MultiLanguage.language this = None ->
  inherited (MultiLanguage.language this) = false ->
  MultiLanguage.lookup this key = NotFound
  /\ MultiLanguage.translate this [p key content] out
     = Normal (VUndefined, [p key content],
               out ++ [language_line (MultiLanguage.language this) key]).
Proof.
  intros Hnone Hplain.
  assert (MultiLanguage.lookup this key = NotFound) as Hmissing.
  { unfold MultiLanguage.lookup, MultiLanguage.read, get_table.
    rewrite Hnone, (not_inherited_undefined _ Hplain). reflexivity. }
  split; [done|].
  exact (applyAll_single_missing (LanguageMaps this) (p key content) out Hmissing).
Qed.

Lemma no_sub_map_finds_nothing_witness :
  MultiLanguage.lookup
    (MultiLanguage.new_Translator (Some "fr") (Some languages_example)) "constructor"
  = NotFound
  /\ MultiLanguage.translate
       (MultiLanguage.new_Translator (Some "fr") (Some languages_example))
       [p "constructor" "Constructor"] []
     = Normal (VUndefined, [p "constructor" "Constructor"],
               [] ++ [language_line
                        (MultiLanguage.language
                           (MultiLanguage.new_Translator (Some "fr")
                              (Some languages_example)))
                        "constructor"]).
Proof.
  apply (no_sub_map_finds_nothing
           (MultiLanguage.new_Translator (Some "fr") (Some languages_example))
           "constructor" "Constructor" []).
  - reflexivity.
  - reflexivity.
Defined.

(** ** What a pass of a static engine keeps and what it prints *)

(** X2. When the active language is a tag of the table or names nothing
    inherited, the lines already on the console stay, and the pass appends
    one line per target whose key is missing, in document order, each naming
    the key of its target (and, in the multi-language variant, the active
    language). *)
Theorem warnings_in_document_order (engine : StaticEngine) (nodes : list Element)
    (out : console) :
  plain_language engine = true ->
  exists nodes',
    applyAll engine nodes out
    = Normal (VUndefined, nodes',
              out ++ List.map (diagnostic engine)
                       (List.filter (fun key => negb (is_found (lookup engine key)))
                          (List.map data_translate nodes))).
Proof.
  intros Hplain. eexists. rewrite applyAll_run by done. do 2 f_equal. f_equal.
  unfold diagnostics. induction nodes as [|element rest IH]; simpl; [done|].
  destruct (is_found (lookup engine (data_translate element))); simpl; by rewrite IH.
Qed.

Lemma warnings_in_document_order_witness :
  exists nodes',
    applyAll uk_engine [p "farewell" "Farewell"; p "hello" "Hello"; p "thanks" "Thanks"]
      ["earlier line"]
    = Normal (VUndefined, nodes',
              ["earlier line"]
                ++ List.map (diagnostic uk_engine)
                     (List.filter (fun key => negb (is_found (lookup uk_engine key)))
                        (List.map data_translate
                           [p "farewell" "Farewell"; p "hello" "Hello";
                            p "thanks" "Thanks"]))).
Proof.
  apply (warnings_in_document_order uk_engine
           [p "farewell" "Farewell"; p "hello" "Hello"; p "thanks" "Thanks"]
           ["earlier line"]).
  reflexivity.
Defined.

(** X3. When the active language is a tag of the table or names nothing
    inherited, translating a batch is translating its first part and then,
    on the console the first part left, its second part. *)
Theorem translate_splits (engine : StaticEngine) (first second : list Element)
    (out : console) :
  plain_language engine = true ->
  exists first' second' lines lines',
    applyAll engine first out = Normal (VUndefined, first', out ++ lines)
    /\ applyAll engine second (out ++ lines)
       = Normal (VUndefined, second', out ++ lines ++ lines')
    /\ applyAll engine (first ++ second) out
       = Normal (VUndefined, first' ++ second', out ++ lines ++ lines').
Proof.
  intros Hplain.
  exists (List.map (substitute (lookup engine)) first),
         (List.map (substitute (lookup engine)) second),
         (diagnostics (lookup engine) (diagnostic engine) first),
         (diagnostics (lookup engine) (diagnostic engine) second).
  rewrite !applyAll_run by done.
  rewrite List.map_app, diagnostics_app, <- app_assoc. done.
Qed.

Lemma translate_splits_witness :
  exists first' second' lines lines',
    applyAll uk_engine [p "farewell" "Farewell"; p "hello" "Hello"] []
    = Normal (VUndefined, first', [] ++ lines)
    /\ applyAll uk_engine [p "thanks" "Thanks"] ([] ++ lines)
       = Normal (VUndefined, second', [] ++ lines ++ lines')
    /\ applyAll uk_engine
         ([p "farewell" "Farewell"; p "hello" "Hello"] ++ [p "thanks" "Thanks"]) []
       = Normal (VUndefined, first' ++ second', [] ++ lines ++ lines').
Proof.
  apply (translate_splits uk_engine [p "farewell" "Farewell"; p "hello" "Hello"]
           [p "thanks" "Thanks"] []).
  reflexivity.
Defined.

(** X4. An entry whose text is the empty string counts as missing: the
    target keeps its content and the diagnostic is printed, so a pass cannot
    blank a target. *)
Theorem empty_text_is_missing (engine : StaticEngine) (table : gmap string string)
    (K content : string) (out : console) :
  active_table engine = Some table ->
  table !! K = Some "" ->
  lookup engine K = NotFound
  /\ applyAll engine [p K content] out
     = Normal (VUndefined, [p K content], out ++ [diagnostic engine K]).
Proof.
  intros Hactive HK.
  assert (lookup engine K = NotFound) as Hmissing.
  { by apply (lookup_missing_cases _ table). }
  split; [done|]. by apply applyAll_single_missing.
Qed.

Lemma empty_text_is_missing_witness :
  lookup (FlatMap (DataAttributes.new_Translator (Some {[ "hello" := "" ]}))) "hello"
  = NotFound
  /\ applyAll (FlatMap (DataAttributes.new_Translator (Some {[ "hello" := "" ]})))
       [p "hello" "Hello"] []
     = Normal (VUndefined, [p "hello" "Hello"],
               [] ++ [diagnostic
                        (FlatMap (DataAttributes.new_Translator (Some {[ "hello" := "" ]})))
                        "hello"]).
Proof.
  apply (empty_text_is_missing
           (FlatMap (DataAttributes.new_Translator (Some {[ "hello" := "" ]})))
           {[ "hello" := "" ]} "hello" "Hello" []).
  - reflexivity.
  - reflexivity.
Defined.

(** X5. A pass over a table writes nothing of its own: after it, every
    target is either exactly as it was, or holds a non-empty text that the
    table stores under the target's key, or, when the table has no entry for
    the key, the text of the built-in object that the table inherits under
    that name. *)
Theorem translate_writes_what_it_reads (engine : StaticEngine)
    (table : gmap string string) (nodes : list Element) (out : console) :
  active_table engine = Some table ->
  exists nodes' out',
    applyAll engine nodes out = Normal (VUndefined, nodes', out')
    /\ forall i element element',
         nodes !! i = Some element ->
         nodes' !! i = Some element' ->
         element' = element
         \/ (innerHTML element' <> ""
             /\ data_translate element' = data_translate element
             /\ (table !! data_translate element = Some (innerHTML element')
                 \/ (table !! data_translate element = None
                     /\ exists b,
                          object_prototype_get (VBuiltin ObjectPrototype)
                            (data_translate element)
                          = VBuiltin b
                          /\ innerHTML element' = builtin_text b))).
Proof.
  intros Hactive.
  eexists _, _. split; [apply applyAll_run; by eapply own_is_plain|].
  intros i element element' Hi Hi'.
  rewrite (lookup_map_substitute _ _ _ _ Hi) in Hi'. injection Hi' as <-.
  unfold substitute. rewrite (lookup_own _ _ _ Hactive).
  unfold result_of, get.
  destruct (table !! data_translate element) as [[|a s]|] eqn:Hkey; simpl.
  - by left.
  - right. split; [done|]. split; [done|]. by left.
  - destruct (object_prototype_get_cases (data_translate element)) as [[b Hb]|Hb];
      rewrite Hb; simpl; [|by left].
    right. split; [apply builtin_text_not_empty|]. split; [done|].
    right. split; [done|]. by exists b.
Qed.

Lemma translate_writes_what_it_reads_witness :
  exists nodes' out',
    applyAll flat_engine [p "hello" "Hello"; p "valueOf" "Value"; p "thanks" "Thanks"] []
    = Normal (VUndefined, nodes', out')
    /\ forall i element element',
         [p "hello" "Hello"; p "valueOf" "Value"; p "thanks" "Thanks"] !! i
         = Some element ->
         nodes' !! i = Some element' ->
         element' = element
         \/ (innerHTML element' <> ""
             /\ data_translate element' = data_translate element
             /\ (flat_example !! data_translate element = Some (innerHTML element')
                 \/ (flat_example !! data_translate element = None
                     /\ exists b,
                          object_prototype_get (VBuiltin ObjectPrototype)
                            (data_translate element)
                          = VBuiltin b
                          /\ innerHTML element' = builtin_text b))).
Proof.
  apply (translate_writes_what_it_reads flat_engine flat_example
           [p "hello" "Hello"; p "valueOf" "Value"; p "thanks" "Thanks"] []).
  reflexivity.
Defined.

(** ** Switching the language between two passes *)

Lemma multi_translate_run (this : MultiLanguage.Translator)
    (nodes : list Element) (out : console) :
  plain_language (LanguageMaps this) = true ->
  MultiLanguage.translate this nodes out
  = Normal (VUndefined,
            List.map (substitute (MultiLanguage.lookup this)) nodes,
            out ++ diagnostics (MultiLanguage.lookup this)
                     (language_line (MultiLanguage.language this)) nodes).
Proof. exact (applyAll_run (LanguageMaps this) nodes out). Qed.

(** Two passes with a switch in between, in one equation. *)
Lemma translate_switch_translate_run (this : MultiLanguage.Translator)
    (T : string) (nodes : list Element) (out : console) :
  plain_language (LanguageMaps this) = true ->
  plain_language (LanguageMaps (MultiLanguage.setLanguage T this)) = true ->
  translate_switch_translate this T nodes out
  = Normal (VUndefined,
            List.map (substitute (MultiLanguage.lookup (MultiLanguage.setLanguage T this)))
              (List.map (substitute (MultiLanguage.lookup this)) nodes),
            out ++ diagnostics (MultiLanguage.lookup this)
                     (language_line (MultiLanguage.language this)) nodes
                ++ diagnostics (MultiLanguage.lookup (MultiLanguage.setLanguage T this))
                     (language_line T) nodes).
Proof.
  intros Hfirst Hsecond. unfold translate_switch_translate.
  rewrite (multi_translate_run this) by done.
  rewrite bind_normal, multi_translate_run by done.
  rewrite diagnostics_same_keys by apply substitute_key.
  by rewrite <- app_assoc.
Qed.

Lemma substitute_twice_covered (first second : string -> LookupResult)
    (element : Element) :
  (forall e, second (data_translate element) <> Raised e) ->
  (second (data_translate element) = NotFound ->
   first (data_translate element) = NotFound) ->
  substitute second (substitute first element) = substitute second element.
Proof.
  intros Hnever Hcovered. unfold substitute at 1. rewrite substitute_key.
  destruct (second (data_translate element)) as [text| |e] eqn:Hsecond.
  - unfold substitute. rewrite Hsecond.
    by destruct (first (data_translate element)).
  - rewrite (substitute_missing first) by auto.
    by rewrite (substitute_missing second).
  - by destruct (Hnever e).
Qed.

(** A sufficient condition on the own entries: every non-empty text of
    [table] has a non-empty counterpart in [other], and [other] stores no
    empty text under a name inherited from [Object.prototype]. *)
Lemma covered_by_entries (table other : gmap string string) :
  map_Forall (fun key text => text <> "" -> exists text', other !! key = Some text'
                                                          /\ text' <> "") table ->
  map_Forall (fun key text => inherited key = true -> text <> "") other ->
  covered_by table other.
Proof.
  intros Hown Hinherited key. unfold get at 1.
  destruct (table !! key) as [text|] eqn:Htable.
  - destruct text as [|a s]; [done|]. intros _.
    destruct (Hown _ _ Htable) as (text' & Hother & Htext'); [done|].
    unfold get. rewrite Hother. by destruct text'.
  - intros Htruthy. unfold get.
    destruct (other !! key) as [text'|] eqn:Hother; [|done].
    assert (text' <> "") as Htext' by (by apply (Hinherited _ _ Hother)).
    by destruct text'.
Qed.

(** X7. When the new language has a truthy value for every key the old
    language has one for, nothing of the old language is left: a pass, the
    switch and a second pass leave every target as a single pass in the new
    language leaves it. *)
Theorem switch_overwrites_when_covered (this : MultiLanguage.Translator)
    (T : string) (table other : gmap string string)
    (nodes : list Element) (out : console) :
  MultiLanguage.translations this !! MultiLanguage.language this = Some table ->
  MultiLanguage.translations this !! T = Some other ->
  covered_by table other ->
  exists nodes' out' out'',
    translate_switch_translate this T nodes out = Normal (VUndefined, nodes', out')
    /\ MultiLanguage.translate (MultiLanguage.setLanguage T this) nodes out
       = Normal (VUndefined, nodes', out'').
Proof.
  intros Hactive Hother Hcovered.
  assert (plain_language (LanguageMaps this) = true) as Hfirst.
  { by apply (own_is_plain _ table). }
  assert (plain_language (LanguageMaps (MultiLanguage.setLanguage T this)) = true)
    as Hsecond.
  { by apply (own_is_plain _ other). }
  eexists _, _, _. rewrite translate_switch_translate_run by done.
  rewrite multi_translate_run by done.
  split; [|reflexivity]. f_equal. f_equal. f_equal.
  rewrite List.map_map. apply List.map_ext. intros element.
  apply substitute_twice_covered.
  - intros e. by apply (plain_never_raises _ Hsecond).
  - change (MultiLanguage.lookup (MultiLanguage.setLanguage T this)
              (data_translate element))
      with (lookup (LanguageMaps (MultiLanguage.setLanguage T this))
              (data_translate element)).
    change (MultiLanguage.lookup this (data_translate element))
      with (lookup (LanguageMaps this) (data_translate element)).
    rewrite (lookup_own (LanguageMaps (MultiLanguage.setLanguage T this)) other) by done.
    rewrite (lookup_own (LanguageMaps this) table) by done.
    intros Hmissing%result_of_missing. unfold result_of.
    destruct (ToBoolean (get table (data_translate element))) eqn:Htruthy; [|done].
    by rewrite (Hcovered _ Htruthy) in Hmissing.
Qed.

Lemma switch_overwrites_when_covered_witness :
  exists nodes' out' out'',
    translate_switch_translate
      (MultiLanguage.new_Translator (Some "uk") (Some languages_example))
      "en" [p "hello" "Hi"; p "farewell" "Farewell"; p "goodbye" "Bye"] []
    = Normal (VUndefined, nodes', out')
    /\ MultiLanguage.translate
         (MultiLanguage.setLanguage "en"
            (MultiLanguage.new_Translator (Some "uk") (Some languages_example)))
         [p "hello" "Hi"; p "farewell" "Farewell"; p "goodbye" "Bye"] []
       = Normal (VUndefined, nodes', out'').
Proof.
  apply (switch_overwrites_when_covered
           (MultiLanguage.new_Translator (Some "uk") (Some languages_example))
           "en"
           {[ "hello" := "Привіт"; "goodbye" := "До побачення" ]}
           {[ "hello" := "Hello"; "goodbye" := "Goodbye" ]}).
  - reflexivity.
  - reflexivity.
  - apply covered_by_entries.
    + apply map_Forall_insert_2; [eauto|]. apply map_Forall_singleton. eauto.
    + apply map_Forall_insert_2; [done|]. by apply map_Forall_singleton.
Defined.

(** ** The multi-language variant against the flat one *)

(** X8. A multi-language Translator whose active language has a sub-map
    treats the targets exactly as the flat Translator built over that
    sub-map does; the warnings are the same in number and order, each
    extended by ' in language: <tag>'. *)
Theorem language_map_acts_as_flat_map (this : MultiLanguage.Translator)
    (table : gmap string string) (nodes : list Element) (out : console) :
  MultiLanguage.translations this !! MultiLanguage.language this = Some table ->
  exists nodes' lines flat_lines,
    MultiLanguage.translate this nodes out = Normal (VUndefined, nodes', out ++ lines)
    /\ DataAttributes.translate (DataAttributes.new_Translator (Some table)) nodes out
       = Normal (VUndefined, nodes', out ++ flat_lines)
    /\ lines
       = List.map (fun line => line +:+ " in language: " +:+ MultiLanguage.language this)
           flat_lines.
Proof.
  intros Hactive.
  set (flat := FlatMap (DataAttributes.new_Translator (Some table))).
  assert (forall key, MultiLanguage.lookup this key = lookup flat key) as Hsame.
  { intros key.
    change (MultiLanguage.lookup this key) with (lookup (LanguageMaps this) key).
    by rewrite (lookup_own (LanguageMaps this) table). }
  exists (List.map (substitute (lookup flat)) nodes),
         (diagnostics (lookup flat) (language_line (MultiLanguage.language this)) nodes),
         (diagnostics (lookup flat) flat_line nodes).
  split; [|split].
  - rewrite multi_translate_run by (by apply (own_is_plain _ table)).
    do 2 f_equal.
    + f_equal. apply List.map_ext. intros element. unfold substitute.
      by rewrite Hsame.
    + f_equal. unfold diagnostics. f_equal.
      apply List.filter_ext. intros element. by rewrite Hsame.
  - by apply (applyAll_run flat).
  - unfold diagnostics. rewrite List.map_map. apply List.map_ext. intros element.
    unfold language_line, flat_line. by rewrite append_assoc.
Qed.

Lemma language_map_acts_as_flat_map_witness :
  exists nodes' lines flat_lines,
    MultiLanguage.translate
      (MultiLanguage.new_Translator (Some "uk") (Some languages_example))
      [p "hello" "Hello"; p "farewell" "Farewell"; p "toString" "To string"] []
    = Normal (VUndefined, nodes', [] ++ lines)
    /\ DataAttributes.translate
         (DataAttributes.new_Translator
            (Some {[ "hello" := "Привіт"; "goodbye" := "До побачення" ]}))
         [p "hello" "Hello"; p "farewell" "Farewell"; p "toString" "To string"] []
       = Normal (VUndefined, nodes', [] ++ flat_lines)
    /\ lines
       = List.map
           (fun line =>
              line +:+ " in language: "
                +:+ MultiLanguage.language
                      (MultiLanguage.new_Translator (Some "uk") (Some languages_example)))
           flat_lines.
Proof.
  apply (language_map_acts_as_flat_map
           (MultiLanguage.new_Translator (Some "uk") (Some languages_example))
           {[ "hello" := "Привіт"; "goodbye" := "До побачення" ]}).
  reflexivity.
Defined.

(** X9. Only the constructor supplies the default language: built with no
    language or with the empty string, the Translator resolves keys against
    the 'en' sub-map, while setLanguage('') makes it resolve them against the
    sub-map stored under the empty tag, here none. *)
Theorem empty_language_defaults_only_at_construction
    (tables : gmap string (gmap string string)) (table : gmap string string)
    (K V : string) (previous : option string) :
  tables !! "en" = Some table ->
  table !! K = Some V ->
  V <> "" ->
  tables !! "" = None ->
  MultiLanguage.lookup (MultiLanguage.new_Translator None (Some tables)) K = Found V
  /\ MultiLanguage.lookup (MultiLanguage.new_Translator (Some "") (Some tables)) K
     = Found V
  /\ MultiLanguage.lookup
       (MultiLanguage.setLanguage "" (MultiLanguage.new_Translator previous (Some tables)))
       K
     = NotFound.
Proof.
  intros Hen HK HV Hempty.
  unfold MultiLanguage.lookup, MultiLanguage.read, get_table. simpl.
  rewrite Hen, Hempty. simpl. by rewrite (get_present _ _ _ HK HV).
Qed.

Lemma empty_language_defaults_only_at_construction_witness :
  MultiLanguage.lookup (MultiLanguage.new_Translator None (Some languages_example))
    "hello"
  = Found "Hello"
  /\ MultiLanguage.lookup
       (MultiLanguage.new_Translator (Some "") (Some languages_example)) "hello"
     = Found "Hello"
  /\ MultiLanguage.lookup
       (MultiLanguage.setLanguage ""
          (MultiLanguage.new_Translator (Some "uk") (Some languages_example)))
       "hello"
     = NotFound.
Proof.
  apply (empty_language_defaults_only_at_construction languages_example
           {[ "hello" := "Hello"; "goodbye" := "Goodbye" ]} "hello" "Hello" (Some "uk")).
  - reflexivity.
  - reflexivity.
  - discriminate.
  - reflexivity.
Defined.

(** ** The proxy *)

(** The usage example's loop over a table, in one equation. *)
Lemma usage_example_run (table : gmap string string) (nodes : list Element) :
  forall out,
    ProxyTranslator.usage_example (ProxyTranslator.new_Translator (Some table)) nodes out
    = Normal (List.map
                (fun element =>
                   set_innerHTML element
                     (ToString
                        (or_else (get table (data_translate element))
                           (VString ("Translation not found for key: "
                                       +:+ data_translate element)))))
                nodes,
              out).
Proof.
  unfold ProxyTranslator.usage_example.
  induction nodes as [|element rest IH]; intros out; [done|].
  erewrite forEach_cons; [|reflexivity]. by rewrite IH.
Qed.

(** X11. Over a table, a read of any property named by a string through the
    proxy does not throw and returns a truthy value, so a caller cannot tell
    a missing key by testing the result. *)
Theorem proxy_result_is_truthy (table : gmap string string) (prop : string) :
  exists translation,
    ProxyTranslator.proxy_get (ProxyTranslator.new_Translator (Some table)) prop
    = Normal translation
    /\ ToBoolean translation = true.
Proof.
  rewrite proxy_get_table. eexists. split; [done|]. unfold or_else.
  destruct (ToBoolean (get table prop)) eqn:Htruthy; [done|].
  by vm_compute.
Qed.

(** X12. Over the same table the proxy's loop and the flat Translator give
    a target whose key is found the same content; for a key that is not
    found the flat Translator keeps the target and prints a line, and the
    proxy's loop writes that very line into the target and prints nothing. *)
Theorem proxy_agrees_with_flat_map (table : gmap string string)
    (nodes : list Element) (out : console) :
  exists proxy_nodes flat_nodes lines,
    ProxyTranslator.usage_example (ProxyTranslator.new_Translator (Some table)) nodes out
    = Normal (proxy_nodes, out)
    /\ DataAttributes.translate (DataAttributes.new_Translator (Some table)) nodes out
       = Normal (VUndefined, flat_nodes, out ++ lines)
    /\ forall i element, nodes !! i = Some element ->
         match DataAttributes.lookup (DataAttributes.new_Translator (Some table))
                 (data_translate element) with
         | Found text =>
             proxy_nodes !! i = Some (set_innerHTML element text)
             /\ flat_nodes !! i = Some (set_innerHTML element text)
         | NotFound =>
             proxy_nodes !! i
             = Some (set_innerHTML element
                       ("Translation not found for key: " +:+ data_translate element))
             /\ flat_nodes !! i = Some element
             /\ In ("Translation not found for key: " +:+ data_translate element) lines
         | Raised _ => False
         end.
Proof.
  set (flat := FlatMap (DataAttributes.new_Translator (Some table))).
  eexists _, _, _. split; [apply usage_example_run|].
  split; [by apply (applyAll_run flat)|].
  intros i element Hi.
  rewrite (lookup_map_substitute _ _ _ _ Hi).
  match goal with
  | |- context [List.map ?f nodes !! i] =>
      change (List.map f nodes) with (f <$> nodes)
  end.
  rewrite list_lookup_fmap, Hi.
  change (DataAttributes.lookup (DataAttributes.new_Translator (Some table)))
    with (lookup flat).
  unfold substitute.
  destruct (lookup flat (data_translate element)) as [text| |e] eqn:Hfind.
  - apply result_of_found in Hfind as [Htrue <-]. simpl in *.
    unfold or_else. by rewrite Htrue.
  - pose proof (result_of_missing _ Hfind) as Hfalse. simpl in Hfalse.
    split; [|split; [done|]].
    { simpl. unfold or_else. by rewrite Hfalse. }
    apply list_elem_of_lookup_2 in Hi. apply list_elem_of_In in Hi.
    unfold diagnostics. apply in_map_iff. exists element. split; [done|].
    apply filter_In. split; [done|]. by rewrite Hfind.
  - by destruct (result_of_not_raised _ _ Hfind).
Qed.

(** X13. Running the proxy's loop a second time changes nothing: every
    target already holds what the loop assigns to it. *)
Theorem proxy_usage_idempotent (table : gmap string string)
    (nodes : list Element) (out : console) :
  exists nodes',
    ProxyTranslator.usage_example (ProxyTranslator.new_Translator (Some table)) nodes out
    = Normal (nodes', out)
    /\ usage_example_twice (ProxyTranslator.new_Translator (Some table)) nodes out
       = Normal (nodes', out).
Proof.
  eexists. split; [apply usage_example_run|].
  unfold usage_example_twice. rewrite usage_example_run, bind_normal.
  rewrite usage_example_run. f_equal. f_equal.
  rewrite List.map_map. by apply List.map_ext.
Qed.

(** X18. Built over a table, the usage example's loop assigns the content
    of every target and prints nothing: the table's text when the key has a
    non-empty one, the text of the built-in object when the table has no
    entry but inherits a member under that name, the generated placeholder
    otherwise. *)
Theorem proxy_writes_every_target (table : gmap string string)
    (nodes : list Element) (out : console) :
  exists nodes',
    ProxyTranslator.usage_example (ProxyTranslator.new_Translator (Some table))
      nodes out
    = Normal (nodes', out)
    /\ length nodes' = length nodes
    /\ forall i element, nodes !! i = Some element ->
         exists text,
           nodes' !! i = Some (set_innerHTML element text)
           /\ ((table !! data_translate element = Some text /\ text <> "")
               \/ (table !! data_translate element = None
                   /\ exists b,
                        object_prototype_get (VBuiltin ObjectPrototype)
                          (data_translate element)
                        = VBuiltin b
                        /\ text = builtin_text b)
               \/ ((table !! data_translate element = Some ""
                    \/ (table !! data_translate element = None
                        /\ inherited (data_translate element) = false))
                   /\ text = "Translation not found for key: "
                               +:+ data_translate element)).
Proof.
  eexists. split; [apply usage_example_run|]. split; [by rewrite length_map|].
  intros i element Hi.
  match goal with
  | |- context [List.map ?f nodes !! i] =>
      change (List.map f nodes) with (f <$> nodes)
  end.
  rewrite list_lookup_fmap, Hi. simpl. eexists. split; [reflexivity|].
  unfold or_else.
  destruct (table !! data_translate element) as [[|a s]|] eqn:Hkey.
  - right. right. unfold get. rewrite Hkey. simpl. split; [by left|done].
  - left. unfold get. rewrite Hkey. by simpl.
  - destruct (get_inherited table _ Hkey) as [Hget Htruthy].
    destruct (object_prototype_get_cases (data_translate element)) as [[b Hb]|Hb];
      rewrite Hb in Hget; rewrite Hget; simpl.
    + right. left. split; [done|]. by exists b.
    + right. right. split; [|done]. right. split; [done|].
      unfold inherited. by rewrite Hb.
Qed.

(** ** The Intl.MessageFormat variant *)

Lemma intl_translate_run (this : IntlTranslator.Translator)
    (nodes : list Element) (out : console) :
  IntlTranslator.translate this nodes out
  = Normal (VUndefined,
            List.map (substitute (intl_lookup this)) nodes,
            out ++ diagnostics (intl_lookup this) (intl_line this) nodes).
Proof.
  assert (forall key e, intl_lookup this key <> Raised e) as Hnever.
  { intros key e. apply result_of_not_raised. }
  unfold IntlTranslator.translate, forEach.
  rewrite (forEach_run_static (intl_lookup this) (intl_line this)).
  - rewrite (never_raised _ _ Hnever).
    by destruct (nothing_raised _ (intl_line this) nodes (never_raised _ _ Hnever))
      as [-> ->].
  - intros element o text [Htrue <-]%result_of_found.
    unfold IntlTranslator.translate_callback. by rewrite Htrue.
  - intros element o Hfalse%result_of_missing.
    unfold IntlTranslator.translate_callback. by rewrite Hfalse.
  - intros element o e H. by destruct (Hnever _ _ H).
Qed.

(** X14. Whatever the formatter is, a pass of the Intl.MessageFormat
    variant keeps the keys and the order of the targets, gives a target the
    formatter's result when that result is truthy and leaves it alone
    otherwise, and prints one 'in locale' line per target left alone, in
    document order. *)
Theorem intl_translate_follows_formatter (this : IntlTranslator.Translator)
    (nodes : list Element) (out : console) :
  exists nodes' lines,
    IntlTranslator.translate this nodes out = Normal (VUndefined, nodes', out ++ lines)
    /\ List.map data_translate nodes' = List.map data_translate nodes
    /\ (forall i element, nodes !! i = Some element ->
          nodes' !! i
          = Some (if ToBoolean (IntlTranslator.formatter this (data_translate element))
                  then set_innerHTML element
                         (ToString (IntlTranslator.formatter this (data_translate element)))
                  else element))
    /\ lines
       = List.map
           (fun key => "Translation not found for key: " +:+ key
                         +:+ " in locale: " +:+ IntlTranslator.locale this)
           (List.filter
              (fun key => negb (ToBoolean (IntlTranslator.formatter this key)))
              (List.map data_translate nodes)).
Proof.
  eexists _, _. split; [apply intl_translate_run|].
  split; [apply map_substitute_keys|]. split.
  - intros i element Hi. rewrite (lookup_map_substitute _ _ _ _ Hi).
    unfold substitute, intl_lookup, result_of.
    by destruct (ToBoolean (IntlTranslator.formatter this (data_translate element))).
  - unfold diagnostics. induction nodes as [|element rest IH]; simpl; [done|].
    unfold intl_lookup at 1, result_of.
    destruct (ToBoolean (IntlTranslator.formatter this (data_translate element)));
      simpl; by rewrite IH.
Qed.

Lemma setLocale_translations (messageFormat : IntlTranslator.MessageFormat)
    (locales : list string) (this : IntlTranslator.Translator) :
  IntlTranslator.translations
    (foldl (fun translator tag => IntlTranslator.setLocale messageFormat tag translator)
       this locales)
  = IntlTranslator.translations this.
Proof.
  revert this. induction locales as [|tag rest IH]; intros this; simpl; [done|].
  by rewrite IH.
Qed.

(** X16. After any sequence of setLocale calls the Translator is the one
    the constructor builds for the last locale set: the locale, the table and
    the formatter (rebuilt over that locale's messages, or over no messages
    when the table has none for it) do not depend on the locales set before. *)
Theorem setLocale_as_constructed (messageFormat : IntlTranslator.MessageFormat)
    (previous : option string) (tables : option (gmap string (gmap string string)))
    (locales : list string) (tag : string) :
  tag <> "" ->
  foldl (fun translator tag => IntlTranslator.setLocale messageFormat tag translator)
    (IntlTranslator.new_Translator messageFormat previous tables)
    (locales ++ [tag])
  = IntlTranslator.new_Translator messageFormat (Some tag) tables.
Proof.
  intros Htag. rewrite foldl_app. simpl.
  unfold IntlTranslator.setLocale at 1. rewrite setLocale_translations.
  unfold IntlTranslator.new_Translator. simpl.
  unfold or_else. by destruct tag.
Qed.

Lemma setLocale_as_constructed_witness :
  foldl (fun translator tag =>
           IntlTranslator.setLocale IntlTranslator.passthrough tag translator)
    (IntlTranslator.new_Translator IntlTranslator.passthrough (Some "uk-UA")
       (Some locales_example))
    (["fr-FR"; "uk-UA"] ++ ["en-US"])
  = IntlTranslator.new_Translator IntlTranslator.passthrough (Some "en-US")
      (Some locales_example).
Proof.
  apply (setLocale_as_constructed IntlTranslator.passthrough (Some "uk-UA")
           (Some locales_example) ["fr-FR"; "uk-UA"] "en-US").
  discriminate.
Defined.
